(** * generate_tfvars_interactive.py: filter resolver, assembler and renderer

    A shallow embedding of [src/generate_tfvars_interactive.py] and the
    properties of its merge-and-render pipeline.

    Conventions of the embedding:
    - a Python [str] is a [string]; case mapping and whitespace are those of
      the ASCII range (characters above 127 are neither cased nor blank);
    - a Python [dict] that is only looked up is a [gmap]; a [dict] that is
      iterated is an association list in insertion order with [dict_set] as
      its item assignment;
    - a [dict] used as a record ([config], a dataset, a table, a filter
      column) is a record of [option]s, [None] standing for an absent key;
    - exceptions are the [Raise] results of [result]; [input()] reads from
      an explicit list of the lines still waiting on stdin;
    - [print] is not modelled (nothing in the program reads stdout back). *)

From Stdlib Require Import ZArith Ascii String List Lia.
From stdpp Require Import base option list strings gmap pretty.

Local Open Scope Z_scope.
Local Open Scope stdpp_scope.

(** ** Exceptions *)

Inductive exn :=
  | KeyError (key : string)
  | ValueError
  | EOFError
  | SystemExit (code : Z).

Inductive result (A : Type) :=
  | Ok (a : A)
  | Raise (e : exn).
Arguments Ok {A} a.
Arguments Raise {A} e.

Definition rbind {A B} (r : result A) (k : A → result B) : result B :=
  match r with
  | Ok a => k a
  | Raise e => Raise e
  end.

Notation "'let?' x := r 'in' k" := (rbind r (λ x, k))
  (at level 10, x pattern, r at level 100, k at level 200).

(** [d[key]] on a record-like dict: [KeyError] when the key is absent. *)
Definition getitem {A} (key : string) (field : option A) : result A :=
  match field with
  | Some a => Ok a
  | None => Raise (KeyError key)
  end.

(** [d.get(key, dflt)]. *)
Definition get_default {A} (field : option A) (dflt : A) : A :=
  match field with
  | Some a => a
  | None => dflt
  end.

(** Truth value of a [str]: non-empty. *)
Definition truthy (s : string) : bool :=
  match s with
  | EmptyString => false
  | String _ _ => true
  end.

(** Truth value of [d.get(key)] (an absent key gives [None], which is false)
    and of an [Optional[str]] argument. *)
Definition truthy_opt (o : option string) : bool :=
  match o with
  | Some s => truthy s
  | None => false
  end.

(** ** String methods *)

(** [sep.join(l)] *)
Fixpoint join (sep : string) (l : list string) : string :=
  match l with
  | [] => ""
  | [x] => x
  | x :: l' => x +:+ sep +:+ join sep l'
  end.

Definition in_range (lo hi : nat) (c : ascii) : bool :=
  (lo <=? nat_of_ascii c)%nat && (nat_of_ascii c <=? hi)%nat.

Definition isupper (c : ascii) : bool := in_range 65 90 c.
Definition islower (c : ascii) : bool := in_range 97 122 c.
Definition isdigit (c : ascii) : bool := in_range 48 57 c.

(** [str.isspace] on one character: TAB, LF, VT, FF, CR, FS, GS, RS, US
    and the space. *)
Definition isspace (c : ascii) : bool :=
  in_range 9 13 c || in_range 28 32 c.

Definition tolower (c : ascii) : ascii :=
  if isupper c then ascii_of_nat (nat_of_ascii c + 32) else c.
Definition toupper (c : ascii) : ascii :=
  if islower c then ascii_of_nat (nat_of_ascii c - 32) else c.

(** [s.lower()] *)
Fixpoint lower (s : string) : string :=
  match s with
  | EmptyString => EmptyString
  | String c s' => String (tolower c) (lower s')
  end.

(** [s.title()]: a cased character is upper-cased when the character before
    it is not cased, and lower-cased when it is. *)
Fixpoint title_from (previous_is_cased : bool) (s : string) : string :=
  match s with
  | EmptyString => EmptyString
  | String c s' =>
      if islower c then
        String (if previous_is_cased then c else toupper c) (title_from true s')
      else if isupper c then
        String (if previous_is_cased then tolower c else c) (title_from true s')
      else String c (title_from false s')
  end.
Definition title (s : string) : string := title_from false s.

Fixpoint lstrip (s : string) : string :=
  match s with
  | EmptyString => EmptyString
  | String c s' => if isspace c then lstrip s' else s
  end.

Fixpoint rstrip (s : string) : string :=
  match s with
  | EmptyString => EmptyString
  | String c s' =>
      match rstrip s' with
      | EmptyString => if isspace c then EmptyString else String c EmptyString
      | r => String c r
      end
  end.

(** [s.strip()] *)
Definition strip (s : string) : string := rstrip (lstrip s).

(** [s.replace(old, new)]; [skip] counts the characters of a match of [old]
    that are still to be dropped. *)
Fixpoint replace_from (old new : string) (skip : nat) (s : string) : string :=
  match s with
  | EmptyString => EmptyString
  | String c s' =>
      match skip with
      | S n => replace_from old new n s'
      | O =>
          if String.prefix old s
          then new +:+ replace_from old new (String.length old - 1) s'
          else String c (replace_from old new 0 s')
      end
  end.

Fixpoint intersperse_str (new s : string) : string :=
  match s with
  | EmptyString => new
  | String c s' => new +:+ String c (intersperse_str new s')
  end.

Definition replace (old new s : string) : string :=
  match old with
  | EmptyString => intersperse_str new s
  | _ => replace_from old new 0 s
  end.

(** [s.split(sep)] for a non-empty separator; [cur] is the piece being read,
    last character first. *)
Fixpoint split_from (sep : string) (skip : nat) (cur : string) (s : string)
  : list string :=
  match s with
  | EmptyString => [String.rev cur]
  | String c s' =>
      match skip with
      | S n => split_from sep n cur s'
      | O =>
          if String.prefix sep s
          then String.rev cur :: split_from sep (String.length sep - 1) "" s'
          else split_from sep 0 (String c cur) s'
      end
  end.

Definition split (sep s : string) : result (list string) :=
  match sep with
  | EmptyString => Raise ValueError
  | _ => Ok (split_from sep 0 "" s)
  end.

(** [int(s)] for a [str]: blanks around, an optional sign, decimal digits
    with single underscores allowed between digits; CPython refuses, with
    [ValueError], a text of more than [sys.int_info.default_max_str_digits]
    digits, leading zeros counted, sign, underscores and blanks not. *)
Definition max_str_digits : nat := 4300.

Fixpoint count_digits (s : string) : nat :=
  match s with
  | EmptyString => 0
  | String c s' => ((if isdigit c then 1 else 0) + count_digits s')%nat
  end.

Fixpoint int_digits (acc : Z) (after_digit : bool) (s : string) : option Z :=
  match s with
  | EmptyString => if after_digit then Some acc else None
  | String c s' =>
      if isdigit c then
        int_digits (10 * acc + (Z.of_nat (nat_of_ascii c) - 48)) true s'
      else if Ascii.eqb c "_" then
        if after_digit then int_digits acc false s' else None
      else None
  end.

Definition int (s : string) : result Z :=
  let parsed :=
    match strip s with
    | String "-" s' => Z.opp <$> int_digits 0 false s'
    | String "+" s' => int_digits 0 false s'
    | s' => int_digits 0 false s'
    end in
  match parsed with
  | Some z =>
      if (count_digits (strip s) <=? max_str_digits)%nat then Ok z
      else Raise ValueError
  | None => Raise ValueError
  end.

(** ** Ordered dicts *)

Section dict.
Context {V : Type}.

(** [d[k] = v]: an existing key keeps its place, a new one goes last. *)
Fixpoint dict_set (k : string) (v : V) (d : list (string * V))
  : list (string * V) :=
  match d with
  | [] => [(k, v)]
  | (k', v') :: d' =>
      if String.eqb k k' then (k, v) :: d' else (k', v') :: dict_set k v d'
  end.
End dict.

(** ** The configuration tree *)

Module FilterColumn.
Record t := mk {
  column_name : option string;
  condition : option string;
  operator : option string
}.
End FilterColumn.

Module Table.
Record t := mk {
  source_table_id : option string;
  view_name : option string;
  filter_columns : option (list FilterColumn.t);
  additional_where : option string;
  description : option string
}.
End Table.

Module SourceDataset.
Record t := mk {
  target_dataset_key : option string;
  source_project_id : option string;
  description : option string;
  tables : option (list (string * Table.t))
}.
End SourceDataset.

Module OutputDataset.
Record t := mk {
  dataset_id : option string;
  description : option string;
  months_back : option Z;
  labels : option (list (string * string))
}.
End OutputDataset.

Module Config.
Record t := mk {
  project_id : option string;
  region : option string;
  view_prefix : option string;
  output_datasets_config : option (list (string * OutputDataset.t));
  source_datasets_config : option (list (string * SourceDataset.t))
}.
End Config.

(** ** Filter resolver *)

(** The [table_filters] literal of [get_table_filter_columns]. *)
Definition table_filters : gmap string (list string) :=
  list_to_map [
    ("users", ["account_name"; "user_id"; "status"]);
    ("transactions", ["client_id"; "status"; "region"]);
    ("events", ["account_name"; "user_id"]);
    ("orders", ["client_id"; "status"]);
    ("logs", ["account_name"; "region"])
  ].

(** The condition built in the loop body from a non-empty value list. *)
Definition format_condition (values : list string) : string :=
  match values with
  | [v0] => "= '" +:+ v0 +:+ "'"
  | _ =>
      let formatted_values := join "', '" values in
      "IN ('" +:+ formatted_values +:+ "')"
  end.

(** One iteration of the loop over [applicable_filters]. *)
Definition filter_step (global_filters : gmap string (list string))
    (filter_columns : list FilterColumn.t) (column_name : string)
  : list FilterColumn.t :=
  match global_filters !! column_name with
  | Some (v :: vs) =>
      let values := v :: vs in
      filter_columns ++
        [FilterColumn.mk (Some column_name) (Some (format_condition values))
           (Some "AND")]
  | _ => filter_columns
  end.

Definition get_table_filter_columns (table_name : string)
    (global_filters : gmap string (list string)) : list FilterColumn.t :=
  let applicable_filters := default [] (table_filters !! table_name) in
  foldl (filter_step global_filters) [] applicable_filters.

(** ** Renderer *)

Definition DQ : string := String "034" "".
Definition NL : string := String "010" "".

(** ["{s}"] inside an f-string *)
Definition quoted (s : string) : string := DQ +:+ s +:+ DQ.

(** A loop whose body extends [lines]: the pieces in order, or the first
    exception. *)
Fixpoint for_each {A} (body : A → result (list string)) (items : list A)
  : result (list string) :=
  match items with
  | [] => Ok []
  | x :: items' =>
      let? ls := body x in
      let? ls' := for_each body items' in
      Ok (ls ++ ls')
  end.

Definition label_line (item : string * string) : string :=
  let '(label_key, label_value) := item in
  "      " +:+ label_key +:+ " = " +:+ quoted label_value.

Definition output_dataset_lines (item : string * OutputDataset.t)
  : result (list string) :=
  let '(key, dataset) := item in
  let? dataset_id := getitem "dataset_id" (OutputDataset.dataset_id dataset) in
  let? description := getitem "description" (OutputDataset.description dataset) in
  let? months_back := getitem "months_back" (OutputDataset.months_back dataset) in
  let? labels := getitem "labels" (OutputDataset.labels dataset) in
  Ok ([ "  " +:+ quoted key +:+ " = {";
        "    dataset_id  = " +:+ quoted dataset_id;
        "    description = " +:+ quoted description;
        "    months_back = " +:+ pretty months_back;
        "    labels = {" ]
      ++ map label_line labels
      ++ [ "    }"; "  }"; "" ]).

Definition filter_column_lines (filter_col : FilterColumn.t)
  : result (list string) :=
  let? column_name := getitem "column_name" (FilterColumn.column_name filter_col) in
  let? condition := getitem "condition" (FilterColumn.condition filter_col) in
  let? operator_line :=
    if bool_decide (FilterColumn.operator filter_col ≠ Some "AND") then
      let? operator := getitem "operator" (FilterColumn.operator filter_col) in
      Ok [ "            operator    = " +:+ quoted operator ]
    else Ok [] in
  Ok ([ "          {";
        "            column_name = " +:+ quoted column_name;
        "            condition   = " +:+ quoted condition ]
      ++ operator_line
      ++ [ "          }" ]).

Definition table_lines (item : string * Table.t) : result (list string) :=
  let '(table_key, table_info) := item in
  let? source_table_id :=
    getitem "source_table_id" (Table.source_table_id table_info) in
  let? view_name := getitem "view_name" (Table.view_name table_info) in
  let? filter_columns :=
    getitem "filter_columns" (Table.filter_columns table_info) in
  let? filter_lines := for_each filter_column_lines filter_columns in
  Ok ([ "      " +:+ quoted table_key +:+ " = {";
        "        source_table_id = " +:+ quoted source_table_id;
        "        view_name      = " +:+ quoted view_name;
        "        filter_columns = [" ]
      ++ filter_lines
      ++ [ "        ]" ]
      ++ match Table.additional_where table_info with
         | Some additional_where =>
             if truthy additional_where
             then [ "        additional_where = " +:+ quoted additional_where ]
             else []
         | None => []
         end
      ++ match Table.description table_info with
         | Some description =>
             if truthy description
             then [ "        description     = " +:+ quoted description ]
             else []
         | None => []
         end
      ++ [ "      }"; "" ]).

Definition source_dataset_lines (item : string * SourceDataset.t)
  : result (list string) :=
  let '(dataset_name, dataset_info) := item in
  let? target_dataset_key :=
    getitem "target_dataset_key" (SourceDataset.target_dataset_key dataset_info) in
  let source_project_line :=
    match SourceDataset.source_project_id dataset_info with
    | Some source_project_id =>
        [ "    source_project_id  = " +:+ quoted source_project_id ]
    | None => []
    end in
  let? description :=
    getitem "description" (SourceDataset.description dataset_info) in
  let? tables := getitem "tables" (SourceDataset.tables dataset_info) in
  let? tables_lines := for_each table_lines tables in
  Ok ([ "  " +:+ quoted dataset_name +:+ " = {";
        "    target_dataset_key = " +:+ quoted target_dataset_key ]
      ++ source_project_line
      ++ [ "    description        = " +:+ quoted description;
           "    tables = {" ]
      ++ tables_lines
      ++ [ "    }"; "  }"; "" ]).

(** The list [lines] at the [return] of [generate_tfvars_content]. *)
Definition generate_tfvars_lines (config : Config.t) : result (list string) :=
  let? project_id := getitem "project_id" (Config.project_id config) in
  let region := get_default (Config.region config) "asia-northeast1" in
  let view_prefix := get_default (Config.view_prefix config) "filtered_" in
  let? output_datasets_config :=
    getitem "output_datasets_config" (Config.output_datasets_config config) in
  let? output_lines := for_each output_dataset_lines output_datasets_config in
  let? source_datasets_config :=
    getitem "source_datasets_config" (Config.source_datasets_config config) in
  let? source_lines := for_each source_dataset_lines source_datasets_config in
  Ok ([ "# GCP Configuration";
        "project_id = " +:+ quoted project_id;
        "region     = " +:+ quoted region;
        "";
        "# View Configuration";
        "view_prefix = " +:+ quoted view_prefix;
        "";
        "# Output Datasets Configuration";
        "output_datasets_config = {" ]
      ++ output_lines
      ++ [ "}";
           "";
           "# Source Datasets and Tables Configuration";
           "source_datasets_config = {" ]
      ++ source_lines
      ++ [ "}" ]).

Definition generate_tfvars_content (config : Config.t) : result string :=
  let? lines := generate_tfvars_lines config in
  Ok (join NL lines).

(** ** Assembler *)

(** The [predefined_structure] literal of [generate_source_datasets_config]:
    dataset name, description, table list. *)
Definition predefined_structure : list (string * (string * list string)) :=
  [ ("raw_lake",
      ("Raw data lake", ["users"; "transactions"; "events"; "orders"; "logs"]));
    ("analytics_raw",
      ("Raw analytics data",
       ["user_behavior"; "conversion_events"; "page_tracking"]));
    ("transaction_raw",
      ("Raw transaction data", ["payments"; "refunds"; "invoices"])) ].

(** The inner loop: [dataset_config["tables"][table_name] = {...}]. *)
Definition add_table (global_filters : gmap string (list string))
    (tables : list (string * Table.t)) (table_name : string)
  : list (string * Table.t) :=
  let filter_columns := get_table_filter_columns table_name global_filters in
  dict_set table_name
    (Table.mk (Some table_name) (Some table_name) (Some filter_columns)
       (Some "") (Some (table_name +:+ " filtered view")))
    tables.

(** The outer loop: [source_datasets_config[dataset_name] = dataset_config]. *)
Definition add_source_dataset (global_filters : gmap string (list string))
    (client_key : string)
    (source_datasets_config : list (string * SourceDataset.t))
    (item : string * (string * list string))
  : list (string * SourceDataset.t) :=
  let '(dataset_name, (description, tables)) := item in
  let dataset_config :=
    SourceDataset.mk (Some client_key) None (Some description)
      (Some (foldl (add_table global_filters) [] tables)) in
  dict_set dataset_name dataset_config source_datasets_config.

Definition generate_source_datasets_config
    (global_filters : gmap string (list string)) (client_key : string)
  : list (string * SourceDataset.t) :=
  foldl (add_source_dataset global_filters client_key) [] predefined_structure.

(** ** Interactive input *)

(** A computation reading stdin: the lines still to be read go in, the
    value and the lines left come out. *)
Definition IO (A : Type) : Type := list string → result (A * list string).

Definition io_ret {A} (a : A) : IO A := λ stdin, Ok (a, stdin).

Definition io_bind {A B} (c : IO A) (k : A → IO B) : IO B := λ stdin,
  match c stdin with
  | Ok (a, stdin') => k a stdin'
  | Raise e => Raise e
  end.

Definition io_lift {A} (r : result A) : IO A := λ stdin,
  match r with
  | Ok a => Ok (a, stdin)
  | Raise e => Raise e
  end.

Notation "'let!' x := c 'in' k" := (io_bind c (λ x, k))
  (at level 10, x pattern, c at level 100, k at level 200).

(** [get_input(prompt, required, default)]: each turn of the [while True]
    reads one line. *)
Fixpoint get_input (required : bool) (default : option string)
    (stdin : list string) : result (string * list string) :=
  match stdin with
  | [] => Raise EOFError
  | line :: stdin' =>
      let value := strip line in
      if truthy value then Ok (value, stdin')
      else
        match default with
        | Some d =>
            if truthy d then Ok (d, stdin')
            else if negb required then Ok ("", stdin')
            else get_input required default stdin'
        | None =>
            if negb required then Ok ("", stdin')
            else get_input required default stdin'
        end
  end.

(** [get_yes_no(prompt, default)] *)
Fixpoint get_yes_no (default : bool) (stdin : list string)
  : result (bool * list string) :=
  match stdin with
  | [] => Raise EOFError
  | line :: stdin' =>
      let response := lower (strip line) in
      if bool_decide (response ∈ ["y"; "yes"]) then Ok (true, stdin')
      else if bool_decide (response ∈ ["n"; "no"]) then Ok (false, stdin')
      else if negb (truthy response) then Ok (default, stdin')
      else get_yes_no default stdin'
  end.

(** The [filter_columns] literal of [collect_global_filter_values]. *)
Definition filter_columns_prompts : list (string * string) :=
  [ ("account_name", "Account name filter");
    ("client_id", "Client ID filter");
    ("user_id", "User ID filter");
    ("status", "Status filter (e.g., 'active', 'completed')");
    ("region", "Region filter") ].

(** [[v.strip() for v in parts if v.strip()]] *)
Fixpoint stripped_nonempty (parts : list string) : list string :=
  match parts with
  | [] => []
  | v :: parts' =>
      if truthy (strip v) then strip v :: stripped_nonempty parts'
      else stripped_nonempty parts'
  end.

Fixpoint collect_filter_values (columns : list (string * string))
    (filter_values : gmap string (list string))
  : IO (gmap string (list string)) :=
  match columns with
  | [] => io_ret filter_values
  | (column, description) :: columns' =>
      let! value := get_input false None in
      if truthy value then
        let! parts := io_lift (split "," value) in
        let values := stripped_nonempty parts in
        collect_filter_values columns' (<[column := values]> filter_values)
      else collect_filter_values columns' filter_values
  end.

Definition collect_global_filter_values : IO (gmap string (list string)) :=
  collect_filter_values filter_columns_prompts ∅.

(** ** main *)

(** [int(get_input("Months back", default="18"))] *)
Definition read_months_back : IO Z :=
  let! months_back := get_input true (Some "18") in
  io_lift (int months_back).

(** The dict literal stored under [dataset_key]; [main] writes it out twice,
    for the primary entry and in the loop, with the same text. *)
Definition output_dataset (dataset_key : string) (months_back : Z)
    (client_name : string) : OutputDataset.t :=
  OutputDataset.mk
    (Some (dataset_key +:+ "_filtered"))
    (Some (title dataset_key +:+ " filtered views for " +:+ client_name))
    (Some months_back)
    (Some [ ("environment", "production");
            ("client", replace " " "_" (lower client_name));
            ("team", dataset_key) ]).

(** [while get_yes_no(prompt, default=False): body]. Every turn reads at
    least one line, so [fuel] turns are enough for [fuel] lines; [None] is a
    loop stopped by lack of fuel ([while_yes_fuel] shows there is none for
    [while_yes]). *)
Fixpoint while_yes_turns {St : Type} (fuel : nat) (body : St → IO St) (s : St)
    (stdin : list string) : option (result (St * list string)) :=
  match get_yes_no false stdin with
  | Raise e => Some (Raise e)
  | Ok (false, stdin') => Some (Ok (s, stdin'))
  | Ok (true, stdin') =>
      match body s stdin' with
      | Raise e => Some (Raise e)
      | Ok (s', stdin'') =>
          match fuel with
          | O => None
          | S fuel' => while_yes_turns fuel' body s' stdin''
          end
      end
  end.

Definition while_yes {St : Type} (body : St → IO St) (s : St) : IO St := λ stdin,
  match while_yes_turns (length stdin) body s stdin with
  | Some r => r
  | None => Raise EOFError
  end.

(** The body of the loop of [main] that adds output datasets. *)
Definition add_output_dataset (client_name : string)
    (output_datasets_config : list (string * OutputDataset.t))
  : IO (list (string * OutputDataset.t)) :=
  let! dataset_key := get_input true None in
  let! months_back := read_months_back in
  io_ret (dict_set dataset_key
            (output_dataset dataset_key months_back client_name)
            output_datasets_config).

(** The local variables of [main] when it writes the file ([dataset_key]
    and [months_back], which hold the last entry read, and the two dicts
    that [config] also holds, are left out). *)
Record main_locals := {
  config : Config.t;
  client_name : string;
  global_filters : gmap string (list string);
  client_key : string;
  content : string;
  output_file : string
}.

(** [main] up to [open(output_file, 'w')]: what is written and where. The
    [try] block that follows is in [main_with_file]. *)
Definition main : IO main_locals :=
  let! project_id := get_input true None in
  let! region := get_input true (Some "asia-northeast1") in
  let! view_prefix := get_input true (Some "filtered_") in
  let! client_name := get_input true None in
  let! global_filters := collect_global_filter_values in
  let client_key := replace "-" "_" (replace " " "_" (lower client_name)) in
  let! dataset_key := get_input true (Some client_key) in
  let! months_back := read_months_back in
  let output_datasets_config :=
    dict_set dataset_key (output_dataset dataset_key months_back client_name) [] in
  let! output_datasets_config :=
    while_yes (add_output_dataset client_name) output_datasets_config in
  let source_datasets_config :=
    generate_source_datasets_config global_filters client_key in
  let config :=
    Config.mk (Some project_id) (Some region) (Some view_prefix)
      (Some output_datasets_config) (Some source_datasets_config) in
  let! content := io_lift (generate_tfvars_content config) in
  let! output_file := get_input true (Some "terraform.tfvars") in
  io_ret {| config := config; client_name := client_name;
            global_filters := global_filters; client_key := client_key;
            content := content; output_file := output_file |}.

(** [main] with its [try] block: the file is written, or any exception of
    the block ([open], [write], the message printed after them) is reported
    and turned into [sys.exit(1)]. Whether the block goes through for a file
    name and a text is the parameter [can_write]; the value is the file
    written and its text. *)
Definition main_with_file (can_write : string → string → bool)
  : IO (string * string) :=
  let! st := main in
  if can_write (output_file st) (content st)
  then io_ret (output_file st, content st)
  else io_lift (Raise (SystemExit 1)).

(** * Definitions used in the statements *)

(** What the loop of [get_table_filter_columns] adds for one column. *)
Definition resolve_column (global_filters : gmap string (list string))
    (column_name : string) : option FilterColumn.t :=
  match global_filters !! column_name with
  | Some (v :: vs) =>
      Some (FilterColumn.mk (Some column_name)
              (Some (format_condition (v :: vs))) (Some "AND"))
  | _ => None
  end.

(** The condition as the specification words it: every value between single
    quotes, the quoted values separated by a comma and a space. *)
Definition quote_value (v : string) : string := "'" +:+ v +:+ "'".

Definition spec_condition (values : list string) : string :=
  match values with
  | [v] => "= " +:+ quote_value v
  | _ => "IN (" +:+ join ", " (map quote_value values) +:+ ")"
  end.

(** The columns the resolver keeps: those with a non-empty value list. *)
Definition has_values (global_filters : gmap string (list string))
    (column_name : string) : bool :=
  match global_filters !! column_name with
  | Some (_ :: _) => true
  | _ => false
  end.


(** A key that is there. *)
Definition present {A} (field : option A) : bool :=
  match field with
  | Some _ => true
  | None => false
  end.

(** The configuration trees in which every key the renderer subscripts is
    there: all keys but [region], [view_prefix], [source_project_id] and a
    table's [additional_where] and [description], which it reads with
    [.get] or tests with [in]. The [operator] of a filter column is among
    the keys it subscripts, although the data model gives it a default. *)
Definition wf_filter_column (filter_col : FilterColumn.t) : bool :=
  present (FilterColumn.column_name filter_col)
  && present (FilterColumn.condition filter_col)
  && present (FilterColumn.operator filter_col).

Definition wf_table (item : string * Table.t) : bool :=
  present (Table.source_table_id item.2)
  && present (Table.view_name item.2)
  && match Table.filter_columns item.2 with
     | Some filter_columns => forallb wf_filter_column filter_columns
     | None => false
     end.

Definition wf_source_dataset (item : string * SourceDataset.t) : bool :=
  present (SourceDataset.target_dataset_key item.2)
  && present (SourceDataset.description item.2)
  && match SourceDataset.tables item.2 with
     | Some tables => forallb wf_table tables
     | None => false
     end.

Definition wf_output_dataset (item : string * OutputDataset.t) : bool :=
  present (OutputDataset.dataset_id item.2)
  && present (OutputDataset.description item.2)
  && present (OutputDataset.months_back item.2)
  && present (OutputDataset.labels item.2).

Definition wf_config (config : Config.t) : bool :=
  present (Config.project_id config)
  && match Config.output_datasets_config config with
     | Some output_datasets_config =>
         forallb wf_output_dataset output_datasets_config
     | None => false
     end
  && match Config.source_datasets_config config with
     | Some source_datasets_config =>
         forallb wf_source_dataset source_datasets_config
     | None => false
     end.

(** A result that is a value when [ok] holds and a [KeyError] otherwise. *)
Definition ok_or_key_error {A} (ok : bool) (r : result A) : Prop :=
  if ok then ∃ a, r = Ok a else ∃ key, r = Raise (KeyError key).

(** The opening line of the block of a mapping entry, [indent] deep. *)
Definition block_header (indent key : string) : string :=
  indent +:+ quoted key +:+ " = {".

(** Configurations for the examples: one output dataset and one source
    dataset with one table and one filter column. *)
Definition sample_output_datasets : list (string * OutputDataset.t) :=
  [ ("acme_co", output_dataset "acme_co" 18 "Acme Co") ].

Definition sample_source_datasets : list (string * SourceDataset.t) :=
  [ ("raw_lake",
     SourceDataset.mk (Some "acme_co") None (Some "Raw data lake")
       (Some [ ("orders",
                Table.mk (Some "orders") (Some "orders")
                  (Some [ FilterColumn.mk (Some "status")
                            (Some "IN ('active', 'done')") (Some "AND") ])
                  (Some "") (Some "orders filtered view")) ])) ].

Definition sample_config : Config.t :=
  Config.mk (Some "my-project") None None
    (Some sample_output_datasets) (Some sample_source_datasets).

(** [sample_config] with the [dataset_id] of its output dataset missing. *)
Definition malformed_config : Config.t :=
  Config.mk (Some "my-project") None None
    (Some [ ("acme_co",
             OutputDataset.mk None (Some "Acme_Co filtered views for Acme Co")
               (Some 18) (Some [])) ])
    (Some sample_source_datasets).

(** The number of [lines] that start with [p]. *)
Fixpoint count_prefixed (p : string) (lines : list string) : nat :=
  match lines with
  | [] => 0
  | line :: lines' =>
      (if String.prefix p line then 1 else 0) + count_prefixed p lines'
  end.

(** The starts of the lines of the four optional fields. *)
Definition source_project_id_line : string := "    source_project_id  = ".
Definition additional_where_line : string := "        additional_where = ".
Definition description_line : string := "        description     = ".
Definition operator_line : string := "            operator    = ".

Definition tables_of (item : string * SourceDataset.t)
  : list (string * Table.t) :=
  default [] (SourceDataset.tables item.2).

Definition filter_columns_of (item : string * Table.t) : list FilterColumn.t :=
  default [] (Table.filter_columns item.2).

(** Source datasets / tables / filter columns of a source section that
    satisfy [f]. *)
Definition count_datasets (f : SourceDataset.t → bool)
    (source_datasets_config : list (string * SourceDataset.t)) : nat :=
  sum_list_with (λ item, if f item.2 then 1 else 0)%nat source_datasets_config.

Definition count_tables (f : Table.t → bool)
    (source_datasets_config : list (string * SourceDataset.t)) : nat :=
  sum_list_with
    (λ item, sum_list_with (λ t, if f t.2 then 1 else 0)%nat (tables_of item))
    source_datasets_config.

Definition count_filter_columns (f : FilterColumn.t → bool)
    (source_datasets_config : list (string * SourceDataset.t)) : nat :=
  sum_list_with
    (λ item,
       sum_list_with
         (λ t, sum_list_with (λ c, if f c then 1 else 0)%nat
                 (filter_columns_of t))
         (tables_of item))
    source_datasets_config.

(** A configuration whose optional fields are there but empty. *)
Definition empty_fields_dataset : SourceDataset.t :=
  SourceDataset.mk (Some "acme_co") (Some "") (Some "Raw data lake")
    (Some [ ("orders",
             Table.mk (Some "orders") (Some "orders")
               (Some [ FilterColumn.mk (Some "status") (Some "= 'active'")
                         (Some "") ])
               (Some "") (Some "")) ]).

Definition empty_fields_config : Config.t :=
  Config.mk (Some "my-project") None None
    (Some sample_output_datasets) (Some [ ("raw_lake", empty_fields_dataset) ]).

(** A filter column without the [operator] key. *)
Definition no_operator_config : Config.t :=
  Config.mk (Some "my-project") None None
    (Some sample_output_datasets)
    (Some [ ("raw_lake",
             SourceDataset.mk (Some "acme_co") None (Some "Raw data lake")
               (Some [ ("orders",
                        Table.mk (Some "orders") (Some "orders")
                          (Some [ FilterColumn.mk (Some "status")
                                    (Some "= 'active'") None ])
                          None None) ])) ]).

(** The same with the operator "AND" spelled out. *)
Definition default_operator_config : Config.t :=
  Config.mk (Some "my-project") None None
    (Some sample_output_datasets)
    (Some [ ("raw_lake",
             SourceDataset.mk (Some "acme_co") None (Some "Raw data lake")
               (Some [ ("orders",
                        Table.mk (Some "orders") (Some "orders")
                          (Some [ FilterColumn.mk (Some "status")
                                    (Some "= 'active'") (Some "AND") ])
                          None None) ])) ]).

(** Well-formed configuration trees as the data model of the specification
    has them: the keys of [wf_config], but for the [operator] of a filter
    column, which has the default "AND". *)
Definition spec_wf_filter_column (filter_col : FilterColumn.t) : bool :=
  present (FilterColumn.column_name filter_col)
  && present (FilterColumn.condition filter_col).

Definition spec_wf_table (item : string * Table.t) : bool :=
  present (Table.source_table_id item.2)
  && present (Table.view_name item.2)
  && match Table.filter_columns item.2 with
     | Some filter_columns => forallb spec_wf_filter_column filter_columns
     | None => false
     end.

Definition spec_wf_source_dataset (item : string * SourceDataset.t) : bool :=
  present (SourceDataset.target_dataset_key item.2)
  && present (SourceDataset.description item.2)
  && match SourceDataset.tables item.2 with
     | Some tables => forallb spec_wf_table tables
     | None => false
     end.

Definition spec_wf_config (config : Config.t) : bool :=
  present (Config.project_id config)
  && match Config.output_datasets_config config with
     | Some output_datasets_config =>
         forallb wf_output_dataset output_datasets_config
     | None => false
     end
  && match Config.source_datasets_config config with
     | Some source_datasets_config =>
         forallb spec_wf_source_dataset source_datasets_config
     | None => false
     end.

(** The fields as the renderer tests them. *)
Definition has_source_project_id (dataset_info : SourceDataset.t) : bool :=
  present (SourceDataset.source_project_id dataset_info).
Definition has_additional_where (table_info : Table.t) : bool :=
  truthy_opt (Table.additional_where table_info).
Definition has_description (table_info : Table.t) : bool :=
  truthy_opt (Table.description table_info).
Definition has_other_operator (filter_col : FilterColumn.t) : bool :=
  bool_decide (FilterColumn.operator filter_col ≠ Some "AND").

(** The entries [generate_source_datasets_config] builds, one by one. *)
Definition assembled_table (global_filters : gmap string (list string))
    (table_name : string) : string * Table.t :=
  (table_name,
   Table.mk (Some table_name) (Some table_name)
     (Some (get_table_filter_columns table_name global_filters))
     (Some "") (Some (table_name +:+ " filtered view"))).

Definition assembled_source_dataset
    (global_filters : gmap string (list string)) (client_key : string)
    (item : string * (string * list string)) : string * SourceDataset.t :=
  (item.1,
   SourceDataset.mk (Some client_key) None (Some item.2.1)
     (Some (map (assembled_table global_filters) item.2.2))).

(** The key [main] derives from the client name. *)
Definition derived_key (client_name : string) : string :=
  replace "-" "_" (replace " " "_" (lower client_name)).

(** Two sessions at the prompts. In the first the client is "Acme Co", the
    status filter is "active, done" and every other answer is left blank.
    In the second the user names the primary dataset "main", adds "fin"
    (after a blank key and an answer that is neither yes nor no), adds
    "main" again with 3 months, and names the output file. *)
Definition acme_session : list string :=
  [ "my-project"; ""; ""; "Acme Co"; ""; ""; ""; "active, done"; "";
    ""; ""; "n"; "" ].

Definition two_datasets_session : list string :=
  [ "my-project"; ""; "  "; "Acme-Co X"; "a'b"; ","; ""; "active, done"; "";
    "main"; "12"; "maybe"; "YES"; ""; "fin"; ""; "y"; "main"; "3"; "";
    "out.tfvars"; "extra" ].

(** ** The pipeline of the specification

    The user input record, its collection at the prompts, and the assembly
    of the configuration from the record and the global filters. *)

Record UserInputRecord := {
  in_project_id : string;
  in_region : string;
  in_view_prefix : string;
  in_client_name : string;
  (** key and months back of each output dataset the user gave, the primary
      one first *)
  in_output_datasets : list (string * Z)
}.

(** One more output dataset: its key and months back. *)
Definition collect_output_dataset (entries : list (string * Z))
  : IO (list (string * Z)) :=
  let! dataset_key := get_input true None in
  let! months_back := read_months_back in
  io_ret (entries ++ [(dataset_key, months_back)]).

(** The answers [main] reads before it assembles anything. *)
Definition collect_user_input
  : IO (UserInputRecord * gmap string (list string)) :=
  let! project_id := get_input true None in
  let! region := get_input true (Some "asia-northeast1") in
  let! view_prefix := get_input true (Some "filtered_") in
  let! client_name := get_input true None in
  let! global_filters := collect_global_filter_values in
  let! dataset_key := get_input true (Some (derived_key client_name)) in
  let! months_back := read_months_back in
  let! output_datasets :=
    while_yes collect_output_dataset [(dataset_key, months_back)] in
  io_ret ({| in_project_id := project_id; in_region := region;
             in_view_prefix := view_prefix; in_client_name := client_name;
             in_output_datasets := output_datasets |},
          global_filters).

Definition spec_add_output_dataset (client_name : string)
    (output_datasets_config : list (string * OutputDataset.t))
    (entry : string * Z) : list (string * OutputDataset.t) :=
  dict_set entry.1 (output_dataset entry.1 entry.2 client_name)
    output_datasets_config.

(** [assemble]: the output datasets from the entries of the record (a key
    given twice keeps its place and takes the later entry), the source
    datasets from the catalog, all pointing to the key derived from the
    client name. *)
Definition spec_assemble (input : UserInputRecord)
    (global_filters : gmap string (list string)) : Config.t :=
  Config.mk (Some (in_project_id input)) (Some (in_region input))
    (Some (in_view_prefix input))
    (Some (foldl (spec_add_output_dataset (in_client_name input)) []
             (in_output_datasets input)))
    (Some (map (assembled_source_dataset global_filters
                  (derived_key (in_client_name input)))
             predefined_structure)).

(** [assemble] then [render], and the name of the file to write. *)
Definition spec_pipeline : IO main_locals :=
  let! collected := collect_user_input in
  let config := spec_assemble collected.1 collected.2 in
  let! content := io_lift (generate_tfvars_content config) in
  let! output_file := get_input true (Some "terraform.tfvars") in
  io_ret {| config := config; client_name := in_client_name collected.1;
            global_filters := collected.2;
            client_key := derived_key (in_client_name collected.1);
            content := content; output_file := output_file |}.

(** Two results that agree: the same exception, or values related by [R]
    with the same lines left on stdin. *)
Definition agree {A B} (R : A → B → Prop)
    (r1 : result (A * list string)) (r2 : result (B * list string)) : Prop :=
  match r1, r2 with
  | Ok (a, stdin1), Ok (b, stdin2) => R a b ∧ stdin1 = stdin2
  | Raise e1, Raise e2 => e1 = e2
  | _, _ => False
  end.

(** The session of [acme_session] with every default typed in, blanks
    around the answers and another file name. *)
Definition acme_session_typed : list string :=
  [ "  my-project"; "asia-northeast1"; "filtered_"; "Acme Co "; ""; ""; "";
    "active ,done,"; ""; "acme_co"; "18"; "maybe"; "no"; "other.tfvars" ].

(** * The rest of the program *)

(** [collect_table_info(global_filters)]: the prompts for one table. [main]
    does not call it. *)
Definition collect_table_info (global_filters : gmap string (list string))
  : IO Table.t :=
  let! source_table_id := get_input true None in
  let! view_name := get_input true (Some source_table_id) in
  let! description := get_input false None in
  let filter_columns :=
    get_table_filter_columns source_table_id global_filters in
  let! additional_where := get_input false None in
  io_ret (Table.mk (Some source_table_id) (Some view_name)
            (Some filter_columns) (Some additional_where) (Some description)).

(** What one line answers at a yes/no prompt, if anything. *)
Definition yes_no_answer (default : bool) (line : string) : option bool :=
  let response := lower (strip line) in
  if bool_decide (response = "y" ∨ response = "yes") then Some true
  else if bool_decide (response = "n" ∨ response = "no") then Some false
  else if bool_decide (response = "") then Some default
  else None.

(** What one line answers at a filter prompt: nothing when blank, else its
    comma-separated pieces, stripped, the blank ones dropped. *)
Definition filter_answer (line : string) : option (list string) :=
  if truthy (strip line)
  then Some (stripped_nonempty (split_from "," 0 "" (strip line)))
  else None.

(** The columns [collect_global_filter_values] asks for, in order. *)
Definition filter_column_names : list string :=
  map fst filter_columns_prompts.

(** The string with [f] applied to each of its characters. *)
Fixpoint map_string (f : ascii → ascii) (s : string) : string :=
  match s with
  | EmptyString => EmptyString
  | String c s' => String (f c) (map_string f s')
  end.

(** [P] holds of every character of the string. *)
Fixpoint all_chars (P : ascii → bool) (s : string) : bool :=
  match s with
  | EmptyString => true
  | String c s' => P c && all_chars P s'
  end.

(** What [main] makes of one character of the client name for the key: its
    lower case, and an underscore for a space or a hyphen. *)
Definition key_char (c : ascii) : ascii :=
  if Ascii.eqb c " " || Ascii.eqb c "-" then "_"%char else tolower c.

(** A character a derived key can hold. *)
Definition key_safe (c : ascii) : bool :=
  negb (Ascii.eqb c " ") && negb (Ascii.eqb c "-") && negb (isupper c).

(** The integers [str] writes within CPython's limit of [max_str_digits]
    digits are those below this bound in absolute value. *)
Definition int_str_limit : Z := 10 ^ 4300.

(** The exceptions of the prompts: stdin at its end, a number that does not
    parse. *)
Definition input_error (e : exn) : Prop := e = EOFError ∨ e = ValueError.

(** The lines that start with [p], in order. *)
Definition lines_with_prefix (p : string) (lines : list string) : list string :=
  List.filter (String.prefix p) lines.

(** The start of the opening line of a top-level block. *)
Definition top_block_start : string := "  " +:+ DQ.

(** A character of the ASCII range. *)
Definition is_ascii (c : ascii) : bool := (nat_of_ascii c <? 128)%nat.

(** ** What a whole rendering holds *)

(** [str] writes the months of every output dataset (see [int_str_limit]). *)
Definition months_printable (config : Config.t) : bool :=
  forallb
    (λ item : string * OutputDataset.t,
       match OutputDataset.months_back item.2 with
       | Some months_back => Z.abs months_back <? int_str_limit
       | None => true
       end)
    (default [] (Config.output_datasets_config config)).

(** The lines that carry the fields of one entry, and the number of lines
    of its block. *)
Definition filter_column_field_lines (filter_col : FilterColumn.t)
  : list string :=
  [ "            column_name = " +:+
      quoted (default "" (FilterColumn.column_name filter_col));
    "            condition   = " +:+
      quoted (default "" (FilterColumn.condition filter_col)) ]
  ++ (if has_other_operator filter_col
      then [ "            operator    = " +:+
               quoted (default "" (FilterColumn.operator filter_col)) ]
      else []).

Definition filter_column_line_count (filter_col : FilterColumn.t) : nat :=
  4 + (if has_other_operator filter_col then 1 else 0).

Definition table_field_lines (item : string * Table.t) : list string :=
  [ block_header "      " item.1;
    "        source_table_id = " +:+
      quoted (default "" (Table.source_table_id item.2));
    "        view_name      = " +:+
      quoted (default "" (Table.view_name item.2)) ]
  ++ (if has_additional_where item.2
      then [ "        additional_where = " +:+
               quoted (default "" (Table.additional_where item.2)) ]
      else [])
  ++ (if has_description item.2
      then [ "        description     = " +:+
               quoted (default "" (Table.description item.2)) ]
      else []).

Definition table_line_count (item : string * Table.t) : nat :=
  7 + (if has_additional_where item.2 then 1 else 0)
  + (if has_description item.2 then 1 else 0)
  + sum_list_with filter_column_line_count (filter_columns_of item).

Definition source_dataset_field_lines (item : string * SourceDataset.t)
  : list string :=
  [ block_header "  " item.1;
    "    target_dataset_key = " +:+
      quoted (default "" (SourceDataset.target_dataset_key item.2));
    "    description        = " +:+
      quoted (default "" (SourceDataset.description item.2)) ]
  ++ match SourceDataset.source_project_id item.2 with
     | Some source_project_id =>
         [ "    source_project_id  = " +:+ quoted source_project_id ]
     | None => []
     end.

Definition source_dataset_line_count (item : string * SourceDataset.t) : nat :=
  7 + (if has_source_project_id item.2 then 1 else 0)
  + sum_list_with table_line_count (tables_of item).

Definition output_dataset_field_lines (item : string * OutputDataset.t)
  : list string :=
  [ block_header "  " item.1;
    "    dataset_id  = " +:+
      quoted (default "" (OutputDataset.dataset_id item.2));
    "    description = " +:+
      quoted (default "" (OutputDataset.description item.2));
    "    months_back = " +:+
      pretty (default 0 (OutputDataset.months_back item.2)) ]
  ++ map label_line (default [] (OutputDataset.labels item.2)).

Definition output_dataset_line_count (item : string * OutputDataset.t) : nat :=
  8 + length (default [] (OutputDataset.labels item.2)).

Definition top_field_lines (config : Config.t) : list string :=
  [ "project_id = " +:+ quoted (default "" (Config.project_id config));
    "region     = " +:+
      quoted (default "asia-northeast1" (Config.region config));
    "view_prefix = " +:+
      quoted (default "filtered_" (Config.view_prefix config)) ].

Definition expected_line_count (config : Config.t) : nat :=
  14
  + sum_list_with output_dataset_line_count
      (default [] (Config.output_datasets_config config))
  + sum_list_with source_dataset_line_count
      (default [] (Config.source_datasets_config config)).

(** Rendered lines that leave nothing of the configuration out: they are as
    many as the blocks of the configuration take, start with the first
    header, end with the closing brace, and hold the line of every field of
    the configuration, of every output dataset with its labels, and of every
    source dataset, table and filter column. *)
Definition fully_rendered (config : Config.t) (lines : list string) : Prop :=
  length lines = expected_line_count config ∧
  head lines = Some "# GCP Configuration" ∧
  last lines = Some "}" ∧
  (∀ line, line ∈ top_field_lines config → line ∈ lines) ∧
  (∀ item, item ∈ default [] (Config.output_datasets_config config) →
     ∀ line, line ∈ output_dataset_field_lines item → line ∈ lines) ∧
  (∀ dataset, dataset ∈ default [] (Config.source_datasets_config config) →
     (∀ line, line ∈ source_dataset_field_lines dataset → line ∈ lines) ∧
     ∀ table, table ∈ tables_of dataset →
       (∀ line, line ∈ table_field_lines table → line ∈ lines) ∧
       ∀ filter_col, filter_col ∈ filter_columns_of table →
         ∀ line, line ∈ filter_column_field_lines filter_col → line ∈ lines).
(** * Properties *)

(** ** Strings and results *)

Lemma str_app_assoc (s1 s2 s3 : string) :
  (s1 +:+ s2) +:+ s3 = s1 +:+ (s2 +:+ s3).
Proof.
  induction s1 as [|c s1 IH]; [reflexivity|].
  change (String c ((s1 +:+ s2) +:+ s3) = String c (s1 +:+ (s2 +:+ s3))).
  by rewrite IH.
Qed.

Lemma Ok_inj {A} (a b : A) : Ok a = Ok b → a = b.
Proof. by intros [= ->]. Qed.

Lemma rbind_Ok {A B} (r : result A) (k : A → result B) (b : B) :
  rbind r k = Ok b → ∃ a, r = Ok a ∧ k a = Ok b.
Proof. destruct r as [a|e]; [eauto|discriminate]. Qed.

(** ** Filter resolver *)

Lemma filter_loop_omap global_filters columns acc :
  foldl (filter_step global_filters) acc columns
  = acc ++ omap (resolve_column global_filters) columns.
Proof.
  revert acc. induction columns as [|c columns IH]; intros acc; simpl.
  - by rewrite app_nil_r.
  - rewrite IH. unfold filter_step, resolve_column.
    destruct (global_filters !! c) as [[|v vs]|]; simpl; try done.
    by rewrite <- app_assoc.
Qed.

Lemma get_table_filter_columns_omap table_name global_filters :
  get_table_filter_columns table_name global_filters
  = omap (resolve_column global_filters)
      (default [] (table_filters !! table_name)).
Proof. unfold get_table_filter_columns. by rewrite filter_loop_omap. Qed.

Lemma join_quote_values v vs :
  "'" +:+ join "', '" (v :: vs) +:+ "'" = join ", " (map quote_value (v :: vs)).
Proof.
  revert v. induction vs as [|w vs IH]; intros v; [reflexivity|].
  change (join "', '" (v :: w :: vs)) with (v +:+ "', '" +:+ join "', '" (w :: vs)).
  change (join ", " (map quote_value (v :: w :: vs)))
    with (quote_value v +:+ ", " +:+ join ", " (map quote_value (w :: vs))).
  rewrite <- IH. unfold quote_value. by rewrite !str_app_assoc.
Qed.

Lemma format_condition_spec values :
  values ≠ [] → format_condition values = spec_condition values.
Proof.
  destruct values as [|v [|w vs]]; [done|reflexivity|]. intros _.
  unfold format_condition, spec_condition.
  rewrite <- join_quote_values. by rewrite !str_app_assoc.
Qed.

Lemma omap_resolve_column_names global_filters columns :
  map FilterColumn.column_name (omap (resolve_column global_filters) columns)
  = map Some (List.filter (has_values global_filters) columns).
Proof.
  induction columns as [|c columns IH]; [reflexivity|]. simpl.
  unfold resolve_column at 1, has_values at 1.
  destruct (global_filters !! c) as [[|v vs]|]; simpl;
    first [exact IH | f_equal; exact IH].
Qed.

(** C1: every filter column the resolver emits has operator "AND" and the
    condition of the value list found for its column: [= 'v'] for a list of
    one value, [IN ('v1', 'v2', ...)] for a longer one, the values in list
    order, each between single quotes and otherwise unchanged. *)
Theorem C1_condition_by_cardinality
    (table_name : string) (global_filters : gmap string (list string))
    (filter_col : FilterColumn.t) :
  filter_col ∈ get_table_filter_columns table_name global_filters →
  FilterColumn.operator filter_col = Some "AND" ∧
  ∃ column_name values,
    FilterColumn.column_name filter_col = Some column_name ∧
    global_filters !! column_name = Some values ∧
    values ≠ [] ∧
    FilterColumn.condition filter_col = Some (spec_condition values) ∧
    (∀ v, values = [v] → spec_condition values = "= '" +:+ v +:+ "'") ∧
    (∀ v1 v2 vs, values = v1 :: v2 :: vs →
       spec_condition values
       = "IN (" +:+ join ", " (map (λ v, "'" +:+ v +:+ "'") values) +:+ ")").
Proof.
  rewrite get_table_filter_columns_omap. intros Hin.
  apply list_elem_of_omap in Hin as (c & _ & Hc).
  unfold resolve_column in Hc.
  destruct (global_filters !! c) as [[|v vs]|] eqn:Hlook; try discriminate.
  injection Hc as <-. split; [reflexivity|].
  exists c, (v :: vs).
  split; [reflexivity|]. split; [exact Hlook|]. split; [discriminate|].
  split; [|split].
  - rewrite <- format_condition_spec by discriminate. reflexivity.
  - by intros ? ->.
  - by intros ??? ->.
Qed.

Lemma C1_condition_by_cardinality_witness :
  let gf : gmap string (list string) :=
    <["client_id" := ["it's"]]> {[ "status" := ["active"; "done"] ]} in
  get_table_filter_columns "orders" gf
  = [ FilterColumn.mk (Some "client_id") (Some "= 'it's'") (Some "AND");
      FilterColumn.mk (Some "status") (Some "IN ('active', 'done')")
        (Some "AND") ] ∧
  FilterColumn.operator
    (FilterColumn.mk (Some "status") (Some "IN ('active', 'done')") (Some "AND"))
  = Some "AND".
Proof.
  intros gf. split; [vm_compute; reflexivity|].
  apply (C1_condition_by_cardinality "orders" gf).
  vm_compute. apply list_elem_of_In. simpl. right. left. reflexivity.
Defined.

(** C2: a table outside the catalog gets the empty list; a catalog table gets
    one filter column for each of its applicable columns that has a non-empty
    value list in the global filters, in catalog order, and nothing for the
    other columns. *)
Theorem C2_one_filter_per_applicable_column
    (table_name : string) (global_filters : gmap string (list string)) :
  (table_filters !! table_name = None →
     get_table_filter_columns table_name global_filters = []) ∧
  (∀ applicable_filters,
     table_filters !! table_name = Some applicable_filters →
     map FilterColumn.column_name
       (get_table_filter_columns table_name global_filters)
     = map Some (List.filter (has_values global_filters) applicable_filters)) ∧
  (∀ column_name,
     global_filters !! column_name = None ∨ global_filters !! column_name = Some [] →
     Some column_name ∉
       map FilterColumn.column_name
         (get_table_filter_columns table_name global_filters)).
Proof.
  rewrite get_table_filter_columns_omap. split; [|split].
  - by intros ->.
  - intros cols ->. apply omap_resolve_column_names.
  - intros c Hc. rewrite omap_resolve_column_names.
    intros Hin. apply list_elem_of_fmap in Hin as (c' & [= <-] & Hin).
    apply list_elem_of_In, filter_In in Hin as [_ Hv].
    unfold has_values in Hv. by destruct Hc as [Hc|Hc]; rewrite Hc in Hv.
Qed.

Lemma C2_one_filter_per_applicable_column_witness :
  let gf : gmap string (list string) :=
    <["region" := []]> {[ "status" := ["active"; "done"] ]} in
  get_table_filter_columns "payments" gf = [] ∧
  map FilterColumn.column_name (get_table_filter_columns "transactions" gf)
  = [Some "status"] ∧
  (Some "client_id" ∉
     map FilterColumn.column_name (get_table_filter_columns "transactions" gf)) ∧
  (Some "region" ∉
     map FilterColumn.column_name (get_table_filter_columns "transactions" gf)).
Proof.
  intros gf.
  destruct (C2_one_filter_per_applicable_column "payments" gf) as (Hnone & _).
  destruct (C2_one_filter_per_applicable_column "transactions" gf)
    as (_ & Hsome & Hskip).
  split; [apply Hnone; vm_compute; reflexivity|].
  split; [apply (Hsome ["client_id"; "status"; "region"]);
          vm_compute; reflexivity|].
  split; apply Hskip; [left|right]; vm_compute; reflexivity.
Defined.

(** The scenario of the specification: the status filter on "orders". *)
Example orders_status_filter :
  get_table_filter_columns "orders" {[ "status" := ["active"; "done"] ]}
  = [ FilterColumn.mk (Some "status") (Some "IN ('active', 'done')")
        (Some "AND") ].
Proof. vm_compute. reflexivity. Qed.

(** ** Renderer: success and failure *)

Lemma ok_or_key_error_getitem {A} (key : string) (field : option A) :
  ok_or_key_error (present field) (getitem key field).
Proof. destruct field; simpl; eauto. Qed.

Lemma ok_or_key_error_for_each {A} (wf : A → bool)
    (body : A → result (list string)) (items : list A) :
  (∀ x, ok_or_key_error (wf x) (body x)) →
  ok_or_key_error (forallb wf items) (for_each body items).
Proof.
  intros Hbody. induction items as [|x items IH]; simpl; [eauto|].
  specialize (Hbody x). destruct (wf x); simpl in *.
  - destruct Hbody as [l ->]. simpl.
    destruct (forallb wf items); simpl in *.
    + destruct IH as [ls ->]. simpl. eauto.
    + destruct IH as [k ->]. simpl. eauto.
  - destruct Hbody as [k ->]. simpl. eauto.
Qed.

Lemma ok_or_key_error_filter_column filter_col :
  ok_or_key_error (wf_filter_column filter_col) (filter_column_lines filter_col).
Proof.
  destruct filter_col as [[cn|] [cond|] [op|]];
    unfold wf_filter_column, filter_column_lines; simpl; eauto.
  case_bool_decide; simpl; eauto.
Qed.

Lemma ok_or_key_error_table item :
  ok_or_key_error (wf_table item) (table_lines item).
Proof.
  destruct item as [table_key [[sid|] [vn|] [fcs|] aw desc]];
    unfold wf_table, table_lines; simpl; eauto.
  pose proof (ok_or_key_error_for_each wf_filter_column filter_column_lines fcs
                ok_or_key_error_filter_column) as H.
  destruct (forallb wf_filter_column fcs); simpl in H.
  - destruct H as [ls ->]. simpl. eauto.
  - destruct H as [k ->]. simpl. eauto.
Qed.

Lemma ok_or_key_error_source_dataset item :
  ok_or_key_error (wf_source_dataset item) (source_dataset_lines item).
Proof.
  destruct item as [dataset_name [[tdk|] spid [desc|] [tables|]]];
    unfold wf_source_dataset, source_dataset_lines; simpl; eauto.
  pose proof (ok_or_key_error_for_each wf_table table_lines tables
                ok_or_key_error_table) as H.
  destruct (forallb wf_table tables); simpl in H.
  - destruct H as [ls ->]. simpl. eauto.
  - destruct H as [k ->]. simpl. eauto.
Qed.

Lemma ok_or_key_error_output_dataset item :
  ok_or_key_error (wf_output_dataset item) (output_dataset_lines item).
Proof.
  destruct item as [key [[id|] [desc|] [mb|] [labels|]]];
    unfold wf_output_dataset, output_dataset_lines; simpl; eauto.
Qed.

Lemma ok_or_key_error_lines config :
  ok_or_key_error (wf_config config) (generate_tfvars_lines config).
Proof.
  destruct config as [[project_id|] region view_prefix [odc|] [sdc|]];
    unfold wf_config, generate_tfvars_lines; simpl; eauto.
  - pose proof (ok_or_key_error_for_each _ _ odc
                  ok_or_key_error_output_dataset) as Ho.
    pose proof (ok_or_key_error_for_each _ _ sdc
                  ok_or_key_error_source_dataset) as Hs.
    destruct (forallb wf_output_dataset odc); simpl in *.
    + destruct Ho as [lo ->]. simpl.
      destruct (forallb wf_source_dataset sdc); simpl in *.
      * destruct Hs as [ls ->]. simpl. eauto.
      * destruct Hs as [k ->]. simpl. eauto.
    + destruct Ho as [k ->]. simpl. eauto.
  - pose proof (ok_or_key_error_for_each _ _ odc
                  ok_or_key_error_output_dataset) as Ho.
    destruct (forallb wf_output_dataset odc); simpl in *.
    + destruct Ho as [lo ->]. simpl. eauto.
    + destruct Ho as [k ->]. simpl. eauto.
Qed.

Lemma ok_or_key_error_content config :
  ok_or_key_error (wf_config config) (generate_tfvars_content config).
Proof.
  pose proof (ok_or_key_error_lines config) as H.
  unfold generate_tfvars_content.
  destruct (wf_config config); simpl in *.
  - destruct H as [ls ->]. simpl. eauto.
  - destruct H as [k ->]. simpl. eauto.
Qed.

Lemma for_each_elem_of {A} (body : A → result (list string)) items lines x :
  for_each body items = Ok lines → x ∈ items →
  ∃ ls, body x = Ok ls ∧ ∀ line, line ∈ ls → line ∈ lines.
Proof.
  revert lines. induction items as [|y items IH]; intros lines Hfor Hin.
  - by apply elem_of_nil in Hin.
  - simpl in Hfor. apply rbind_Ok in Hfor as (ls & Hy & Hfor).
    apply rbind_Ok in Hfor as (ls' & Hitems & [= <-]).
    apply elem_of_cons in Hin as [->|Hin].
    + exists ls. split; [done|]. intros line ?. apply elem_of_app. by left.
    + destruct (IH _ Hitems Hin) as (lx & Hx & Hsub).
      exists lx. split; [done|]. intros line ?. apply elem_of_app. right. eauto.
Qed.

(** C8: the renderer fails on a well-formed configuration. A filter column
    with its column name and its condition and without the [operator] key,
    which the data model gives the default "AND", makes it raise [KeyError]:
    [.get("operator")] is not "AND" for the missing key, and the line written
    next subscripts it. With the operator "AND" spelled out the same
    configuration is rendered. *)
Theorem C8_missing_operator_raises :
  spec_wf_config no_operator_config = true ∧
  generate_tfvars_content no_operator_config = Raise (KeyError "operator") ∧
  (∀ column_name condition,
     filter_column_lines
       (FilterColumn.mk (Some column_name) (Some condition) None)
     = Raise (KeyError "operator")) ∧
  ∃ text, generate_tfvars_content default_operator_config = Ok text.
Proof.
  split; [reflexivity|]. split; [vm_compute; reflexivity|].
  split; [reflexivity|]. eexists. vm_compute. reflexivity.
Qed.

Example malformed_config_raises :
  generate_tfvars_content malformed_config = Raise (KeyError "dataset_id").
Proof. vm_compute. reflexivity. Qed.



(** ** Renderer: the lines of the optional fields *)

Lemma count_prefixed_app p l1 l2 :
  count_prefixed p (l1 ++ l2) = (count_prefixed p l1 + count_prefixed p l2)%nat.
Proof. induction l1 as [|l l1 IH]; simpl; [done|]. rewrite IH. lia. Qed.

Lemma count_prefixed_cons p l ls :
  count_prefixed p (l :: ls)
  = ((if String.prefix p l then 1 else 0) + count_prefixed p ls)%nat.
Proof. reflexivity. Qed.

Lemma count_prefixed_nil p : count_prefixed p [] = 0%nat.
Proof. reflexivity. Qed.

Lemma count_prefixed_for_each {A} p (f : A → nat)
    (body : A → result (list string)) items lines :
  for_each body items = Ok lines →
  (∀ x ls, x ∈ items → body x = Ok ls → count_prefixed p ls = f x) →
  count_prefixed p lines = sum_list_with f items.
Proof.
  revert lines. induction items as [|x items IH]; intros lines Hfor Hbody.
  - by apply Ok_inj in Hfor as <-.
  - simpl in Hfor. apply rbind_Ok in Hfor as (ls & Hx & Hfor).
    apply rbind_Ok in Hfor as (ls' & Hitems & Hfor).
    apply Ok_inj in Hfor as <-.
    rewrite count_prefixed_app. simpl. f_equal.
    + apply Hbody; [apply list_elem_of_here|done].
    + apply IH; [done|]. intros y ly Hy. apply Hbody. by apply list_elem_of_further.
Qed.

(** Decides the [String.prefix] tests of fixed line starts. *)
Ltac eval_prefix :=
  repeat match goal with
  | |- context [String.prefix ?p ?l] =>
      let b := eval vm_compute in (String.prefix p l) in
      first [ constr_eq b true | constr_eq b false ];
      change (String.prefix p l) with b
  end.

Ltac count_lines :=
  rewrite ?count_prefixed_app, ?count_prefixed_cons, ?count_prefixed_nil;
  unfold source_project_id_line, additional_where_line, description_line,
    operator_line;
  eval_prefix.

Lemma filter_column_lines_count filter_col ls :
  filter_column_lines filter_col = Ok ls →
  count_prefixed source_project_id_line ls = 0%nat ∧
  count_prefixed additional_where_line ls = 0%nat ∧
  count_prefixed description_line ls = 0%nat ∧
  count_prefixed operator_line ls
  = (if bool_decide (FilterColumn.operator filter_col ≠ Some "AND")
     then 1 else 0)%nat.
Proof.
  unfold filter_column_lines. intros H.
  apply rbind_Ok in H as (cn & _ & H).
  apply rbind_Ok in H as (cond & _ & H).
  apply rbind_Ok in H as (ol & Hol & H). apply Ok_inj in H as <-.
  case_bool_decide.
  - apply rbind_Ok in Hol as (op & _ & Hol). apply Ok_inj in Hol as <-.
    count_lines. done.
  - apply Ok_inj in Hol as <-. count_lines. done.
Qed.

Lemma table_lines_count item ls :
  table_lines item = Ok ls →
  count_prefixed source_project_id_line ls = 0%nat ∧
  count_prefixed additional_where_line ls
  = (if has_additional_where item.2 then 1 else 0)%nat ∧
  count_prefixed description_line ls
  = (if has_description item.2 then 1 else 0)%nat ∧
  count_prefixed operator_line ls
  = sum_list_with (λ c, if has_other_operator c then 1 else 0)%nat
      (filter_columns_of item).
Proof.
  destruct item as [table_key [sid vn fcs aw desc]].
  unfold table_lines, filter_columns_of, has_additional_where, has_description.
  cbn [snd Table.source_table_id Table.view_name Table.filter_columns
       Table.additional_where Table.description].
  intros H.
  apply rbind_Ok in H as (sid' & _ & H).
  apply rbind_Ok in H as (vn' & _ & H).
  apply rbind_Ok in H as (fcs' & Hfcs & H).
  apply rbind_Ok in H as (fl & Hfl & H). apply Ok_inj in H as <-.
  destruct fcs as [fcs|]; [apply Ok_inj in Hfcs as <-|discriminate].
  assert (count_prefixed source_project_id_line fl = 0%nat
          ∧ count_prefixed additional_where_line fl = 0%nat
          ∧ count_prefixed description_line fl = 0%nat
          ∧ count_prefixed operator_line fl
            = sum_list_with (λ c, if has_other_operator c then 1 else 0)%nat fcs)
    as (Hs & Ha & Hd & Ho).
  { repeat split.
    - rewrite (count_prefixed_for_each _ (λ _, 0%nat) _ _ _ Hfl).
      + clear. induction fcs; simpl; auto.
      + intros c lc _ Hc. by apply filter_column_lines_count in Hc as (? & _).
    - rewrite (count_prefixed_for_each _ (λ _, 0%nat) _ _ _ Hfl).
      + clear. induction fcs; simpl; auto.
      + intros c lc _ Hc. by apply filter_column_lines_count in Hc as (_ & ? & _).
    - rewrite (count_prefixed_for_each _ (λ _, 0%nat) _ _ _ Hfl).
      + clear. induction fcs; simpl; auto.
      + intros c lc _ Hc.
        by apply filter_column_lines_count in Hc as (_ & _ & ? & _).
    - apply (count_prefixed_for_each _ _ _ _ _ Hfl).
      intros c lc _ Hc.
      by apply filter_column_lines_count in Hc as (_ & _ & _ & ?). }
  change (default [] (Some fcs)) with fcs.
  destruct aw as [[|ca aw]|], desc as [[|cd desc]|];
    cbv beta iota delta [truthy truthy_opt];
    rewrite ?count_prefixed_app, Hs, Ha, Hd, Ho; count_lines;
    repeat split; simpl; lia.
Qed.

Lemma sum_list_with_zero {A} (l : list A) : sum_list_with (λ _, 0%nat) l = 0%nat.
Proof. induction l; simpl; auto. Qed.

Lemma source_dataset_lines_count item ls :
  source_dataset_lines item = Ok ls →
  count_prefixed source_project_id_line ls
  = (if has_source_project_id item.2 then 1 else 0)%nat ∧
  count_prefixed additional_where_line ls
  = sum_list_with (λ t, if has_additional_where t.2 then 1 else 0)%nat
      (tables_of item) ∧
  count_prefixed description_line ls
  = sum_list_with (λ t, if has_description t.2 then 1 else 0)%nat
      (tables_of item) ∧
  count_prefixed operator_line ls
  = sum_list_with
      (λ t, sum_list_with (λ c, if has_other_operator c then 1 else 0)%nat
              (filter_columns_of t))
      (tables_of item).
Proof.
  destruct item as [dataset_name [tdk spid desc tables]].
  unfold source_dataset_lines, tables_of, has_source_project_id.
  cbn [snd SourceDataset.target_dataset_key SourceDataset.source_project_id
       SourceDataset.description SourceDataset.tables].
  intros H.
  apply rbind_Ok in H as (tdk' & _ & H).
  apply rbind_Ok in H as (desc' & _ & H).
  apply rbind_Ok in H as (tables' & Htables & H).
  apply rbind_Ok in H as (tl & Htl & H). apply Ok_inj in H as <-.
  destruct tables as [tables|]; [apply Ok_inj in Htables as <-|discriminate].
  change (default [] (Some tables)) with tables.
  assert (count_prefixed source_project_id_line tl = 0%nat) as Hs.
  { rewrite (count_prefixed_for_each _ (λ _, 0%nat) _ _ _ Htl).
    - apply sum_list_with_zero.
    - intros t lt _ Ht. by apply table_lines_count in Ht as (? & _). }
  pose proof (count_prefixed_for_each additional_where_line
                (λ t, if has_additional_where t.2 then 1 else 0)%nat
                _ _ _ Htl) as Ha.
  pose proof (count_prefixed_for_each description_line
                (λ t, if has_description t.2 then 1 else 0)%nat
                _ _ _ Htl) as Hd.
  pose proof (count_prefixed_for_each operator_line
                (λ t, sum_list_with
                        (λ c, if has_other_operator c then 1 else 0)%nat
                        (filter_columns_of t))
                _ _ _ Htl) as Ho.
  rewrite <- Ha, <- Hd, <- Ho.
  - destruct spid as [spid|]; cbv beta iota delta [present];
      rewrite ?count_prefixed_app, Hs; count_lines; repeat split; simpl; lia.
  - intros t lt _ Ht. by apply table_lines_count in Ht as (_ & _ & _ & ?).
  - intros t lt _ Ht. by apply table_lines_count in Ht as (_ & _ & ? & _).
  - intros t lt _ Ht. by apply table_lines_count in Ht as (_ & ? & _).
Qed.

Lemma source_section_count source_datasets_config lines :
  for_each source_dataset_lines source_datasets_config = Ok lines →
  count_prefixed source_project_id_line lines
  = count_datasets has_source_project_id source_datasets_config ∧
  count_prefixed additional_where_line lines
  = count_tables has_additional_where source_datasets_config ∧
  count_prefixed description_line lines
  = count_tables has_description source_datasets_config ∧
  count_prefixed operator_line lines
  = count_filter_columns has_other_operator source_datasets_config.
Proof.
  intros H. unfold count_datasets, count_tables, count_filter_columns.
  repeat split; apply (count_prefixed_for_each _ _ _ _ _ H);
    intros item ls _ Hitem;
    apply source_dataset_lines_count in Hitem as (? & ? & ? & ?); done.
Qed.

(** C6, as the code has it: in the rendered source section a
    [source_project_id] line stands for each source dataset that has the key,
    whatever its value; an [additional_where] line and a [description] line
    for each table where the field is there and not empty; an [operator] line
    for each filter column whose operator is not "AND"; and no other line
    starts like one of these. *)
Theorem C6_optional_lines_of_source_section
    (source_datasets_config : list (string * SourceDataset.t))
    (lines : list string) :
  for_each source_dataset_lines source_datasets_config = Ok lines →
  count_prefixed source_project_id_line lines
  = count_datasets has_source_project_id source_datasets_config ∧
  count_prefixed additional_where_line lines
  = count_tables has_additional_where source_datasets_config ∧
  count_prefixed description_line lines
  = count_tables has_description source_datasets_config ∧
  count_prefixed operator_line lines
  = count_filter_columns has_other_operator source_datasets_config.
Proof.
  intros Hlines. unfold count_datasets, count_tables, count_filter_columns.
  split; [|split; [|split]].
  - apply (count_prefixed_for_each _ _ _ _ _ Hlines). intros item ls _ Hitem.
    by apply source_dataset_lines_count in Hitem as (? & _).
  - apply (count_prefixed_for_each _ _ _ _ _ Hlines). intros item ls _ Hitem.
    by apply source_dataset_lines_count in Hitem as (_ & ? & _).
  - apply (count_prefixed_for_each _ _ _ _ _ Hlines). intros item ls _ Hitem.
    by apply source_dataset_lines_count in Hitem as (_ & _ & ? & _).
  - apply (count_prefixed_for_each _ _ _ _ _ Hlines). intros item ls _ Hitem.
    by apply source_dataset_lines_count in Hitem as (_ & _ & _ & ?).
Qed.

Lemma C6_optional_lines_of_source_section_witness :
  ∃ lines,
    for_each source_dataset_lines [ ("raw_lake", empty_fields_dataset) ]
    = Ok lines ∧
    count_prefixed source_project_id_line lines = 1%nat ∧
    count_prefixed additional_where_line lines = 0%nat ∧
    count_prefixed description_line lines = 0%nat ∧
    count_prefixed operator_line lines = 1%nat.
Proof.
  eexists. split; [vm_compute; reflexivity|].
  apply (C6_optional_lines_of_source_section
           [ ("raw_lake", empty_fields_dataset) ]).
  vm_compute. reflexivity.
Defined.

(** C6 as the specification has it fails: a [source_project_id] and an
    [operator] that are there and empty are rendered, as empty assignments. *)
Lemma C6_empty_fields_are_rendered :
  SourceDataset.source_project_id empty_fields_dataset = Some "" ∧
  (∀ filter_col table,
     filter_col ∈ filter_columns_of table →
     table ∈ tables_of ("raw_lake", empty_fields_dataset) →
     FilterColumn.operator filter_col = Some "") ∧
  ∃ lines,
    generate_tfvars_lines empty_fields_config = Ok lines ∧
    ("    source_project_id  = " +:+ quoted "") ∈ lines ∧
    ("            operator    = " +:+ quoted "") ∈ lines.
Proof.
  split; [reflexivity|]. split.
  - intros filter_col table Hc Ht.
    apply list_elem_of_singleton in Ht as ->.
    by apply list_elem_of_singleton in Hc as ->.
  - eexists. split; [vm_compute; reflexivity|].
    split; apply list_elem_of_In; vm_compute;
      repeat (first [left; reflexivity | right]).
Qed.

(** A filter column without the [operator] key is not rendered at all. *)
Example no_operator_raises :
  generate_tfvars_content no_operator_config = Raise (KeyError "operator").
Proof. vm_compute. reflexivity. Qed.

(** ** Reading stdin *)

Lemma io_bind_Ok {A B} (c : IO A) (k : A → IO B) stdin r :
  io_bind c k stdin = Ok r →
  ∃ a stdin', c stdin = Ok (a, stdin') ∧ k a stdin' = Ok r.
Proof.
  unfold io_bind. destruct (c stdin) as [[a stdin']|e]; [eauto|discriminate].
Qed.

Lemma io_lift_Ok {A} (r : result A) stdin a stdin' :
  io_lift r stdin = Ok (a, stdin') → r = Ok a ∧ stdin' = stdin.
Proof. unfold io_lift. destruct r; [|discriminate]. by intros [= -> ->]. Qed.

Lemma get_input_length required default stdin value stdin' :
  get_input required default stdin = Ok (value, stdin') →
  (length stdin' < length stdin)%nat.
Proof.
  induction stdin as [|line stdin IH]; simpl; [discriminate|].
  destruct (truthy (strip line)); [intros [= _ <-]; lia|].
  destruct default as [d|].
  - destruct (truthy d); [intros [= _ <-]; lia|].
    destruct required; simpl; [|intros [= _ <-]; lia].
    intros H. apply IH in H. lia.
  - destruct required; simpl; [|intros [= _ <-]; lia].
    intros H. apply IH in H. lia.
Qed.

Lemma get_yes_no_length default stdin answer stdin' :
  get_yes_no default stdin = Ok (answer, stdin') →
  (length stdin' < length stdin)%nat.
Proof.
  induction stdin as [|line stdin IH]; simpl; [discriminate|].
  repeat case_bool_decide; try (intros [= _ <-]; lia).
  destruct (truthy (lower (strip line))); simpl; [|intros [= _ <-]; lia].
  intros Hrec. apply IH in Hrec. lia.
Qed.

Lemma read_months_back_length stdin months_back stdin' :
  read_months_back stdin = Ok (months_back, stdin') →
  (length stdin' < length stdin)%nat.
Proof.
  unfold read_months_back. intros H.
  apply io_bind_Ok in H as (s & stdin1 & Hs & H).
  apply io_lift_Ok in H as [_ ->]. by apply get_input_length in Hs.
Qed.

(** The loop never runs out of fuel when it has a turn for every line. *)
Lemma while_yes_turns_fuel {St : Type} (body : St → IO St) :
  (∀ s stdin s' stdin',
     body s stdin = Ok (s', stdin') → (length stdin' ≤ length stdin)%nat) →
  ∀ fuel s stdin,
    (length stdin ≤ fuel)%nat → while_yes_turns fuel body s stdin ≠ None.
Proof.
  intros Hbody fuel. induction fuel as [|fuel IH]; intros s stdin Hlen; simpl.
  - destruct stdin; [done|simpl in Hlen; lia].
  - destruct (get_yes_no false stdin) as [[[] stdin1]|e] eqn:Hyes; [|done..].
    destruct (body s stdin1) as [[s2 stdin2]|e] eqn:Hb; [|done].
    apply IH. apply get_yes_no_length in Hyes. apply Hbody in Hb. lia.
Qed.

(** With a turn for every line, the amount of fuel changes nothing. *)
Lemma while_yes_turns_more_fuel {St : Type} (body : St → IO St) :
  (∀ s stdin s' stdin',
     body s stdin = Ok (s', stdin') → (length stdin' ≤ length stdin)%nat) →
  ∀ fuel1 fuel2 s stdin,
    (length stdin ≤ fuel1)%nat → (length stdin ≤ fuel2)%nat →
    while_yes_turns fuel1 body s stdin = while_yes_turns fuel2 body s stdin.
Proof.
  intros Hbody fuel1.
  induction fuel1 as [|fuel1 IH]; intros fuel2 s stdin Hlen1 Hlen2.
  - destruct stdin; [by destruct fuel2|simpl in Hlen1; lia].
  - destruct fuel2 as [|fuel2].
    { destruct stdin; [done|simpl in Hlen2; lia]. }
    cbn [while_yes_turns].
    destruct (get_yes_no false stdin) as [[[] stdin1]|e] eqn:Hyes; [|done..].
    destruct (body s stdin1) as [[s2 stdin2]|e] eqn:Hb; [|done].
    apply get_yes_no_length in Hyes. apply Hbody in Hb.
    apply IH; lia.
Qed.

(** The loop, one turn at a time. *)
Lemma while_yes_unfold {St : Type} (body : St → IO St) :
  (∀ s stdin s' stdin',
     body s stdin = Ok (s', stdin') → (length stdin' ≤ length stdin)%nat) →
  ∀ s stdin,
    while_yes body s stdin
    = match get_yes_no false stdin with
      | Raise e => Raise e
      | Ok (false, stdin') => Ok (s, stdin')
      | Ok (true, stdin') =>
          match body s stdin' with
          | Raise e => Raise e
          | Ok (s', stdin'') => while_yes body s' stdin''
          end
      end.
Proof.
  intros Hbody s stdin. unfold while_yes.
  destruct stdin as [|line stdin]; [done|].
  change (length (line :: stdin)) with (S (length stdin)).
  cbn [while_yes_turns].
  destruct (get_yes_no false (line :: stdin)) as [[[] stdin1]|e] eqn:Hyes;
    [|done..].
  destruct (body s stdin1) as [[s2 stdin2]|e] eqn:Hb; [|done].
  apply get_yes_no_length in Hyes. apply Hbody in Hb. simpl in Hyes.
  apply (f_equal (λ o, match o with Some r => r | None => Raise EOFError end)).
  apply (while_yes_turns_more_fuel body Hbody); lia.
Qed.

(** An invariant of the state that every turn keeps holds at the end. *)
Lemma while_yes_invariant {St : Type} (body : St → IO St) (I : St → Prop) :
  (∀ s stdin s' stdin', I s → body s stdin = Ok (s', stdin') → I s') →
  ∀ s stdin s' stdin',
    I s → while_yes body s stdin = Ok (s', stdin') → I s'.
Proof.
  intros Hbody s stdin s' stdin' HI. unfold while_yes.
  generalize (length stdin) as fuel. intros fuel. revert s stdin HI.
  induction fuel as [|fuel IH]; intros s stdin HI; simpl.
  - destruct (get_yes_no false stdin) as [[[] stdin1]|e]; try discriminate.
    + destruct (body s stdin1) as [[s2 stdin2]|e]; discriminate.
    + by intros [= <- _].
  - destruct (get_yes_no false stdin) as [[[] stdin1]|e]; try discriminate.
    + destruct (body s stdin1) as [[s2 stdin2]|e] eqn:Hb; [|discriminate].
      apply IH. eauto.
    + by intros [= <- _].
Qed.

Lemma add_output_dataset_length client_name odc stdin odc' stdin' :
  add_output_dataset client_name odc stdin = Ok (odc', stdin') →
  (length stdin' ≤ length stdin)%nat.
Proof.
  unfold add_output_dataset. intros H.
  apply io_bind_Ok in H as (k & stdin1 & Hk & H).
  apply io_bind_Ok in H as (mb & stdin2 & Hmb & H).
  injection H as _ <-.
  apply get_input_length in Hk. apply read_months_back_length in Hmb. lia.
Qed.

(** The loop of [main] is never cut short. *)
Lemma add_output_datasets_fuel client_name odc stdin :
  while_yes_turns (length stdin) (add_output_dataset client_name) odc stdin
  ≠ None.
Proof.
  apply while_yes_turns_fuel; [|done].
  intros ????. apply add_output_dataset_length.
Qed.

(** ** Assembler *)

Lemma generate_source_datasets_config_map global_filters client_key :
  generate_source_datasets_config global_filters client_key
  = map (assembled_source_dataset global_filters client_key)
      predefined_structure.
Proof. reflexivity. Qed.

Lemma dict_set_Forall {V} (P : string * V → Prop) k v (d : list (string * V)) :
  Forall P d → P (k, v) → Forall P (dict_set k v d).
Proof.
  intros Hd Hkv. induction Hd as [|[k' v'] d Hx Hd IH]; simpl.
  - by constructor.
  - destruct (String.eqb k k'); constructor; auto.
Qed.

(** What a run of [main] that reaches the file leaves in its variables. *)
Lemma main_Ok stdin st stdin' :
  main stdin = Ok (st, stdin') →
  ∃ project_id region view_prefix output_datasets_config,
    config st
    = Config.mk (Some project_id) (Some region) (Some view_prefix)
        (Some output_datasets_config)
        (Some (generate_source_datasets_config (global_filters st)
                 (client_key st))) ∧
    client_key st = derived_key (client_name st) ∧
    Forall (λ item, ∃ months_back,
              item.2 = output_dataset item.1 months_back (client_name st))
      output_datasets_config ∧
    generate_tfvars_content (config st) = Ok (content st).
Proof.
  unfold main. intros H.
  apply io_bind_Ok in H as (project_id & s1 & _ & H).
  apply io_bind_Ok in H as (region & s2 & _ & H).
  apply io_bind_Ok in H as (view_prefix & s3 & _ & H).
  apply io_bind_Ok in H as (client & s4 & _ & H).
  apply io_bind_Ok in H as (gf & s5 & _ & H).
  apply io_bind_Ok in H as (dataset_key & s6 & _ & H).
  apply io_bind_Ok in H as (months_back & s7 & _ & H).
  apply io_bind_Ok in H as (odc & s8 & Hloop & H).
  apply io_bind_Ok in H as (text & s9 & Htext & H).
  apply io_bind_Ok in H as (file & s10 & _ & H).
  apply io_lift_Ok in Htext as [Htext _].
  injection H as <- _. cbn [config client_name client_key global_filters content].
  exists project_id, region, view_prefix, odc.
  split; [done|]. split; [done|]. split; [|done].
  revert Hloop. apply while_yes_invariant.
  - intros d t d' t' Hd Hbody. unfold add_output_dataset in Hbody.
    apply io_bind_Ok in Hbody as (k & t1 & _ & Hbody).
    apply io_bind_Ok in Hbody as (mb & t2 & _ & Hbody).
    injection Hbody as <- _. apply dict_set_Forall; [done|]. by exists mb.
  - repeat constructor. by exists months_back.
Qed.

(** C3: every output dataset of the configuration [main] builds has the
    labels [environment], [client] and [team], in this order and no other:
    "production", the client name in lower case with its spaces turned into
    underscores, and the key of the entry. *)
Theorem C3_labels_of_output_datasets
    (stdin : list string) (st : main_locals) (stdin' : list string)
    (key : string) (dataset : OutputDataset.t)
    (output_datasets_config : list (string * OutputDataset.t)) :
  main stdin = Ok (st, stdin') →
  Config.output_datasets_config (config st) = Some output_datasets_config →
  (key, dataset) ∈ output_datasets_config →
  OutputDataset.labels dataset
  = Some [ ("environment", "production");
           ("client", replace " " "_" (lower (client_name st)));
           ("team", key) ].
Proof.
  intros Hmain Hodc Hin.
  apply main_Ok in Hmain as (p & r & v & odc & Hcfg & _ & Hall & _).
  rewrite Hcfg in Hodc. injection Hodc as <-.
  rewrite Forall_forall in Hall. apply Hall in Hin as [mb Hd].
  simpl in Hd. by rewrite Hd.
Qed.

Lemma C3_labels_of_output_datasets_witness :
  ∃ st stdin',
    main two_datasets_session = Ok (st, stdin') ∧
    Config.output_datasets_config (config st)
    = Some [ ("main", output_dataset "main" 3 "Acme-Co X");
             ("fin", output_dataset "fin" 18 "Acme-Co X") ] ∧
    replace " " "_" (lower (client_name st)) = "acme-co_x" ∧
    OutputDataset.labels (output_dataset "fin" 18 "Acme-Co X")
    = Some [ ("environment", "production");
             ("client", replace " " "_" (lower (client_name st)));
             ("team", "fin") ].
Proof.
  eexists _, _.
  split; [vm_compute; reflexivity|].
  split; [reflexivity|]. split; [reflexivity|].
  eapply (C3_labels_of_output_datasets two_datasets_session _ _
            "fin" (output_dataset "fin" 18 "Acme-Co X")).
  - vm_compute. reflexivity.
  - reflexivity.
  - apply list_elem_of_further, list_elem_of_here.
Defined.

Lemma assembled_source_dataset_elem global_filters client_key name info :
  (name, info) ∈ generate_source_datasets_config global_filters client_key →
  ∃ description tables,
    info = SourceDataset.mk (Some client_key) None (Some description)
             (Some (map (assembled_table global_filters) tables)).
Proof.
  rewrite generate_source_datasets_config_map. intros Hin.
  apply list_elem_of_fmap in Hin as ([n [d ts]] & Heq & _).
  injection Heq as _ ->. by exists d, ts.
Qed.

(** C4: every source dataset of the configuration [main] builds points to
    the key derived from the client name (lower case, spaces and hyphens
    turned into underscores), whatever the user answers at the dataset-key
    prompts. *)
Theorem C4_target_dataset_key_is_derived_key
    (stdin : list string) (st : main_locals) (stdin' : list string)
    (dataset_name : string) (dataset_info : SourceDataset.t)
    (source_datasets_config : list (string * SourceDataset.t)) :
  main stdin = Ok (st, stdin') →
  Config.source_datasets_config (config st) = Some source_datasets_config →
  (dataset_name, dataset_info) ∈ source_datasets_config →
  SourceDataset.target_dataset_key dataset_info
  = Some (replace "-" "_" (replace " " "_" (lower (client_name st)))).
Proof.
  intros Hmain Hsdc Hin.
  apply main_Ok in Hmain as (p & r & v & odc & Hcfg & Hkey & _).
  rewrite Hcfg in Hsdc. injection Hsdc as <-.
  apply assembled_source_dataset_elem in Hin as (d & ts & ->).
  simpl. by rewrite Hkey.
Qed.

Lemma C4_target_dataset_key_is_derived_key_witness :
  ∃ st stdin' sdc dataset_info,
    main two_datasets_session = Ok (st, stdin') ∧
    client_name st = "Acme-Co X" ∧
    (map fst <$> Config.output_datasets_config (config st))
    = Some ["main"; "fin"] ∧
    Config.source_datasets_config (config st) = Some sdc ∧
    sdc !! 1%nat = Some ("analytics_raw", dataset_info) ∧
    replace "-" "_" (replace " " "_" (lower (client_name st))) = "acme_co_x" ∧
    SourceDataset.target_dataset_key dataset_info
    = Some (replace "-" "_" (replace " " "_" (lower (client_name st)))).
Proof.
  eexists _, _, _, _.
  split; [vm_compute; reflexivity|].
  split; [reflexivity|]. split; [reflexivity|]. split; [reflexivity|].
  split; [reflexivity|]. split; [reflexivity|].
  eapply (C4_target_dataset_key_is_derived_key two_datasets_session _ _
            "analytics_raw").
  - vm_compute. reflexivity.
  - reflexivity.
  - apply list_elem_of_further, list_elem_of_here.
Defined.




Lemma resolver_wf table_name global_filters :
  forallb wf_filter_column (get_table_filter_columns table_name global_filters)
  = true.
Proof.
  rewrite get_table_filter_columns_omap.
  induction (default [] (table_filters !! table_name)) as [|c cols IH];
    [reflexivity|].
  simpl. unfold resolve_column at 1.
  by destruct (global_filters !! c) as [[|v vs]|].
Qed.

Lemma assembled_tables_wf global_filters tables :
  forallb wf_table (map (assembled_table global_filters) tables) = true.
Proof.
  induction tables as [|t tables IH]; [reflexivity|].
  cbn [map forallb]. rewrite IH.
  unfold wf_table, assembled_table.
  cbn [snd Table.source_table_id Table.view_name Table.filter_columns present].
  by rewrite resolver_wf.
Qed.

Lemma assembled_source_datasets_wf global_filters client_key :
  forallb wf_source_dataset
    (generate_source_datasets_config global_filters client_key) = true.
Proof.
  rewrite generate_source_datasets_config_map.
  induction predefined_structure as [|[n [d ts]] items IH]; [reflexivity|].
  cbn [map forallb]. rewrite IH.
  unfold wf_source_dataset, assembled_source_dataset.
  cbn [fst snd SourceDataset.target_dataset_key SourceDataset.description
       SourceDataset.tables present].
  by rewrite assembled_tables_wf.
Qed.

Lemma assembled_table_elem global_filters tables table_key table_info :
  (table_key, table_info) ∈ map (assembled_table global_filters) tables →
  table_info
  = Table.mk (Some table_key) (Some table_key)
      (Some (get_table_filter_columns table_key global_filters))
      (Some "") (Some (table_key +:+ " filtered view")).
Proof.
  intros Hin. apply list_elem_of_fmap in Hin as (t & Heq & _).
  by injection Heq as -> ->.
Qed.

(** C9: in the configuration [main] builds no source dataset has a
    [source_project_id], and every table has the empty [additional_where] and
    the description made of its name and " filtered view"; its rendered
    source section has one description line for each of the eleven tables
    and no [source_project_id] or [additional_where] line. *)
Theorem C9_assembled_source_section
    (stdin : list string) (st : main_locals) (stdin' : list string) :
  main stdin = Ok (st, stdin') →
  ∃ source_datasets_config,
    Config.source_datasets_config (config st) = Some source_datasets_config ∧
    (∀ dataset_name dataset_info,
       (dataset_name, dataset_info) ∈ source_datasets_config →
       SourceDataset.source_project_id dataset_info = None ∧
       ∀ table_key table_info,
         (table_key, table_info) ∈ tables_of (dataset_name, dataset_info) →
         Table.source_table_id table_info = Some table_key ∧
         Table.additional_where table_info = Some "" ∧
         Table.description table_info
         = Some (table_key +:+ " filtered view")) ∧
    ∃ lines,
      for_each source_dataset_lines source_datasets_config = Ok lines ∧
      count_prefixed source_project_id_line lines = 0%nat ∧
      count_prefixed additional_where_line lines = 0%nat ∧
      count_prefixed description_line lines
      = sum_list_with (λ item, length (tables_of item)) source_datasets_config ∧
      sum_list_with (λ item, length (tables_of item)) source_datasets_config
      = 11%nat.
Proof.
  intros Hmain.
  apply main_Ok in Hmain as (p & r & v & odc & Hcfg & _ & _ & _).
  rewrite Hcfg. eexists. split; [reflexivity|]. split.
  - intros name info Hin.
    apply assembled_source_dataset_elem in Hin as (d & ts & ->).
    split; [reflexivity|]. intros tk ti Hin.
    apply assembled_table_elem in Hin as ->. done.
  - pose proof (ok_or_key_error_for_each _ _
                  (generate_source_datasets_config (global_filters st)
                     (client_key st))
                  ok_or_key_error_source_dataset) as Hok.
    rewrite assembled_source_datasets_wf in Hok. destruct Hok as [lines Hlines].
    exists lines. split; [done|].
    apply source_section_count in Hlines as (Hs & Ha & Hd & _).
    rewrite Hs, Ha, Hd. by repeat split.
Qed.

Lemma C9_assembled_source_section_witness :
  ∃ st stdin' lines,
    main acme_session = Ok (st, stdin') ∧
    for_each source_dataset_lines
      (default [] (Config.source_datasets_config (config st))) = Ok lines ∧
    count_prefixed source_project_id_line lines = 0%nat ∧
    count_prefixed additional_where_line lines = 0%nat ∧
    count_prefixed description_line lines = 11%nat.
Proof.
  eexists _, _, _.
  split; [vm_compute; reflexivity|].
  split; [vm_compute; reflexivity|].
  edestruct (C9_assembled_source_section acme_session)
    as (sdc & Hsdc & _ & lines & Hlines & Hs & Ha & Hd & Hn);
    [vm_compute; reflexivity|].
  injection Hsdc as <-.
  vm_compute in Hlines. injection Hlines as <-.
  rewrite Hn in Hd. by repeat split.
Defined.

(** ** [main] as collect, assemble, render *)

Lemma while_yes_turns_agree {A B} (R : A → B → Prop)
    (body1 : A → IO A) (body2 : B → IO B) :
  (∀ a b stdin, R a b → agree R (body1 a stdin) (body2 b stdin)) →
  ∀ fuel a b stdin, R a b →
    match while_yes_turns fuel body1 a stdin,
          while_yes_turns fuel body2 b stdin with
    | Some r1, Some r2 => agree R r1 r2
    | None, None => True
    | _, _ => False
    end.
Proof.
  intros Hbody fuel.
  induction fuel as [|fuel IH]; intros a b stdin HR; simpl.
  - destruct (get_yes_no false stdin) as [[[] stdin1]|e]; simpl; try done.
    specialize (Hbody a b stdin1 HR). unfold agree in Hbody.
    destruct (body1 a stdin1) as [[a' t1]|e1], (body2 b stdin1) as [[b' t2]|e2];
      simpl; try done.
  - destruct (get_yes_no false stdin) as [[[] stdin1]|e]; simpl; try done.
    specialize (Hbody a b stdin1 HR). unfold agree in Hbody.
    destruct (body1 a stdin1) as [[a' t1]|e1], (body2 b stdin1) as [[b' t2]|e2];
      simpl; try done.
    destruct Hbody as [HR' ->]. by apply IH.
Qed.

Lemma while_yes_agree {A B} (R : A → B → Prop)
    (body1 : A → IO A) (body2 : B → IO B) a b stdin :
  (∀ a b stdin, R a b → agree R (body1 a stdin) (body2 b stdin)) →
  R a b → agree R (while_yes body1 a stdin) (while_yes body2 b stdin).
Proof.
  intros Hbody HR. unfold while_yes.
  pose proof (while_yes_turns_agree R body1 body2 Hbody (length stdin) a b
                stdin HR) as H.
  destruct (while_yes_turns (length stdin) body1 a stdin),
           (while_yes_turns (length stdin) body2 b stdin); done.
Qed.

Lemma foldl_snoc {A B} (f : A → B → A) a l x :
  foldl f a (l ++ [x]) = f (foldl f a l) x.
Proof. by rewrite foldl_app. Qed.

Lemma add_output_dataset_agree client odc entries stdin :
  odc = foldl (spec_add_output_dataset client) [] entries →
  agree (λ odc entries,
           odc = foldl (spec_add_output_dataset client) [] entries)
    (add_output_dataset client odc stdin)
    (collect_output_dataset entries stdin).
Proof.
  intros ->.
  unfold add_output_dataset, collect_output_dataset, io_bind, agree.
  destruct (get_input true None stdin) as [[k s']|e]; [|done].
  destruct (read_months_back s') as [[mb s'']|e]; [|done].
  simpl. by rewrite foldl_snoc.
Qed.

(** [main] is the pipeline of the specification. *)
Lemma main_spec_pipeline stdin : main stdin = spec_pipeline stdin.
Proof.
  unfold main, spec_pipeline, collect_user_input, io_bind.
  destruct (get_input true None stdin) as [[project_id s1]|e]; [|done].
  destruct (get_input true (Some "asia-northeast1") s1) as [[region s2]|e];
    [|done].
  destruct (get_input true (Some "filtered_") s2) as [[view_prefix s3]|e];
    [|done].
  destruct (get_input true None s3) as [[client s4]|e]; [|done].
  destruct (collect_global_filter_values s4) as [[gf s5]|e]; [|done].
  fold (derived_key client).
  destruct (get_input true (Some (derived_key client)) s5)
    as [[dataset_key s6]|e]; [|done].
  destruct (read_months_back s6) as [[months_back s7]|e]; [|done].
  pose proof (while_yes_agree _ _ _
    (dict_set dataset_key (output_dataset dataset_key months_back client) [])
    [(dataset_key, months_back)] s7
    (add_output_dataset_agree client) eq_refl) as Hloop.
  destruct (while_yes (add_output_dataset client) _ s7) as [[odc s8]|e1],
           (while_yes collect_output_dataset _ s7) as [[entries t8]|e2];
    simpl in Hloop; try done.
  - destruct Hloop as [-> <-].
    by rewrite generate_source_datasets_config_map.
  - by rewrite Hloop.
Qed.

Lemma spec_assemble_wf input global_filters :
  wf_config (spec_assemble input global_filters) = true.
Proof.
  unfold wf_config, spec_assemble.
  cbn [Config.project_id Config.output_datasets_config
       Config.source_datasets_config present].
  rewrite <- generate_source_datasets_config_map,
    assembled_source_datasets_wf, andb_true_r. cbn [andb].
  apply forallb_forall. intros item Hin. apply list_elem_of_In in Hin.
  revert item Hin. apply Forall_forall.
  generalize (in_output_datasets input). intros entries.
  induction entries as [|entry entries IH] using rev_ind; [constructor|].
  rewrite foldl_snoc. by apply dict_set_Forall.
Qed.

(** Once the answers are collected, [main] assembles, renders and reaches
    the file as soon as it reads a file name. *)
Lemma main_succeeds stdin input global_filters rest file rest' :
  collect_user_input stdin = Ok ((input, global_filters), rest) →
  get_input true (Some "terraform.tfvars") rest = Ok (file, rest') →
  ∃ st, main stdin = Ok (st, rest') ∧
        config st = spec_assemble input global_filters ∧
        output_file st = file.
Proof.
  intros Hcollect Hfile. rewrite main_spec_pipeline.
  unfold spec_pipeline, io_bind. rewrite Hcollect. cbn [fst snd].
  pose proof (ok_or_key_error_content (spec_assemble input global_filters))
    as Hok.
  rewrite spec_assemble_wf in Hok. destruct Hok as [text ->].
  unfold io_lift. rewrite Hfile. eexists. by split.
Qed.

(** C7: two runs of [main] in which the user gave the same input record and
    the same global filters build the same configuration and write the same
    text, the one [generate_tfvars_content] gives for the configuration
    assembled from the record; that text is a function of the configuration
    alone. *)
Theorem C7_same_input_same_output
    (stdin1 stdin2 : list string) (input : UserInputRecord)
    (gf : gmap string (list string)) (rest1 rest2 : list string)
    (st1 st2 : main_locals) (stdin1' stdin2' : list string) :
  collect_user_input stdin1 = Ok ((input, gf), rest1) →
  collect_user_input stdin2 = Ok ((input, gf), rest2) →
  main stdin1 = Ok (st1, stdin1') →
  main stdin2 = Ok (st2, stdin2') →
  config st1 = spec_assemble input gf ∧
  config st2 = spec_assemble input gf ∧
  generate_tfvars_content (spec_assemble input gf) = Ok (content st1) ∧
  content st1 = content st2.
Proof.
  rewrite !main_spec_pipeline. unfold spec_pipeline, io_bind.
  intros -> ->. cbn [fst snd].
  destruct (io_lift (generate_tfvars_content (spec_assemble input gf)) rest1)
    as [[text1 t1]|e1] eqn:H1; [|discriminate].
  destruct (io_lift (generate_tfvars_content (spec_assemble input gf)) rest2)
    as [[text2 t2]|e2] eqn:H2; [|discriminate].
  apply io_lift_Ok in H1 as [H1 ->]. apply io_lift_Ok in H2 as [H2 ->].
  destruct (get_input true (Some "terraform.tfvars") rest1)
    as [[f1 u1]|e1]; [|discriminate].
  destruct (get_input true (Some "terraform.tfvars") rest2)
    as [[f2 u2]|e2]; [|discriminate].
  intros [= <- _] [= <- _]. cbn [config content].
  repeat split; congruence.
Qed.

Lemma C7_same_input_same_output_witness :
  ∃ st1 st2 stdin1' stdin2',
    main acme_session = Ok (st1, stdin1') ∧
    main acme_session_typed = Ok (st2, stdin2') ∧
    output_file st1 = "terraform.tfvars" ∧
    output_file st2 = "other.tfvars" ∧
    content st1 = content st2.
Proof.
  eexists _, _, _, _.
  split; [vm_compute; reflexivity|]. split; [vm_compute; reflexivity|].
  split; [reflexivity|]. split; [reflexivity|].
  eapply (C7_same_input_same_output acme_session acme_session_typed).
  - vm_compute. reflexivity.
  - vm_compute. reflexivity.
  - vm_compute. reflexivity.
  - vm_compute. reflexivity.
Defined.

(** * The rest of the program *)

(** ** The prompts *)

Lemma truthy_true (s : string) : truthy s = true ↔ s ≠ "".
Proof. destruct s; simpl; split; congruence. Qed.

Lemma truthy_false (s : string) : truthy s = false ↔ s = "".
Proof. destruct s; simpl; split; congruence. Qed.

(** X1: [get_input] skips lines only when the field is required and has no
    default, and only blank lines; the answer is the first line left,
    stripped, or the default (or the empty string, when nothing is required)
    if that line is blank. A required field is never returned empty. *)
Theorem get_input_answer
    (required : bool) (default : option string) (stdin : list string)
    (value : string) (stdin' : list string) :
  get_input required default stdin = Ok (value, stdin') →
  ∃ skipped line,
    stdin = skipped ++ line :: stdin' ∧
    Forall (λ l, strip l = "") skipped ∧
    (skipped ≠ [] → required = true ∧ truthy_opt default = false) ∧
    (strip line ≠ "" → value = strip line) ∧
    (strip line = "" →
       (truthy_opt default = true ∧ default = Some value) ∨
       (truthy_opt default = false ∧ required = false ∧ value = "")) ∧
    (required = true → value ≠ "").
Proof.
  revert value stdin'.
  induction stdin as [|line stdin IH]; intros value stdin'; simpl;
    [discriminate|].
  destruct (truthy (strip line)) eqn:Hline.
  { intros [= <- <-]. apply truthy_true in Hline.
    exists [], line. repeat split; try done. }
  apply truthy_false in Hline.
  destruct (truthy_opt default) eqn:Hdefault.
  { destruct default as [d|]; [|discriminate]. simpl in Hdefault.
    rewrite Hdefault. intros [= <- <-]. apply truthy_true in Hdefault.
    exists [], line. repeat split; try done. intros _. by left. }
  assert (match default with
          | Some d =>
              if truthy d then Ok (d, stdin)
              else if negb required then Ok ("", stdin)
                   else get_input required default stdin
          | None =>
              if negb required then Ok ("", stdin)
              else get_input required default stdin
          end
          = if negb required then Ok ("", stdin)
            else get_input required default stdin) as ->.
  { destruct default as [d|]; [|done]. simpl in Hdefault. by rewrite Hdefault. }
  destruct required; simpl.
  - intros Hget.
    apply IH in Hget as (skipped & l & -> & Hblank & _ & Hv & Hd & Hne).
    exists (line :: skipped), l. repeat split; try done. by constructor.
  - intros [= <- <-]. exists [], line. repeat split; try done.
    intros _. by right.
Qed.

Lemma get_input_answer_witness :
  ∃ skipped line,
    [""; "  "; " acme "; "next"] = skipped ++ line :: ["next"] ∧
    Forall (λ l, strip l = "") skipped ∧
    (skipped ≠ [] → true = true ∧ truthy_opt None = false) ∧
    (strip line ≠ "" → "acme" = strip line) ∧
    (strip line = "" →
       (truthy_opt None = true ∧ None = Some "acme") ∨
       (truthy_opt None = false ∧ true = false ∧ "acme" = "")) ∧
    (true = true → "acme" ≠ "").
Proof.
  apply (get_input_answer true None [""; "  "; " acme "; "next"] "acme" ["next"]).
  vm_compute. reflexivity.
Defined.

(** X2: [get_input] raises nothing but [EOFError], and only when every line
    left is blank and either there is no line at all or the field is
    required without a default; in that case it does raise. *)
Theorem get_input_raises
    (required : bool) (default : option string) (stdin : list string)
    (e : exn) :
  get_input required default stdin = Raise e ↔
  e = EOFError ∧
  Forall (λ l, strip l = "") stdin ∧
  (stdin = [] ∨ (required = true ∧ truthy_opt default = false)).
Proof.
  induction stdin as [|line stdin IH]; simpl.
  { split; [intros [= <-]; by repeat split; auto|by intros [-> _]]. }
  destruct (truthy (strip line)) eqn:Hline.
  { split; [discriminate|]. intros (_ & Hall & _).
    apply Forall_cons in Hall as [Hblank _].
    apply truthy_true in Hline. done. }
  apply truthy_false in Hline.
  destruct default as [d|]; simpl.
  - destruct (truthy d) eqn:Hd; simpl.
    { split; [discriminate|]. by intros (_ & _ & [?|[_ ?]]). }
    destruct required; simpl.
    + rewrite IH. simpl. rewrite Hd. split.
      * intros (-> & Hall & _). repeat split; auto.
      * intros (-> & Hall & _). apply Forall_cons in Hall as [_ Hall].
        repeat split; auto.
    + split; [discriminate|]. by intros (_ & _ & [?|[? _]]).
  - destruct required; simpl.
    + rewrite IH. simpl. split.
      * intros (-> & Hall & _). repeat split; auto.
      * intros (-> & Hall & _). apply Forall_cons in Hall as [_ Hall].
        repeat split; auto.
    + split; [discriminate|]. by intros (_ & _ & [?|[? _]]).
Qed.

Lemma get_input_raises_witness :
  get_input true (Some "") [""; " "; "   "] = Raise EOFError.
Proof.
  apply (get_input_raises true (Some "") [""; " "; "   "] EOFError).
  split; [reflexivity|]. split.
  - repeat constructor.
  - right. split; reflexivity.
Defined.

(** ** Yes or no *)

Lemma get_yes_no_step default line stdin :
  get_yes_no default (line :: stdin)
  = match yes_no_answer default line with
    | Some answer => Ok (answer, stdin)
    | None => get_yes_no default stdin
    end.
Proof.
  cbn [get_yes_no]. unfold yes_no_answer.
  generalize (lower (strip line)). intros response.
  rewrite (bool_decide_ext (response ∈ ["y"; "yes"])
             (response = "y" ∨ response = "yes"))
    by (rewrite !elem_of_cons, elem_of_nil; tauto).
  rewrite (bool_decide_ext (response ∈ ["n"; "no"])
             (response = "n" ∨ response = "no"))
    by (rewrite !elem_of_cons, elem_of_nil; tauto).
  destruct (bool_decide (response = "y" ∨ response = "yes")); [done|].
  destruct (bool_decide (response = "n" ∨ response = "no")); [done|].
  by destruct response.
Qed.

(** X3: [get_yes_no] skips the lines that are no answer (neither y, yes, n
    or no in any case and with blanks around, nor blank) and returns what
    the first answer says, a blank line standing for the default; it raises
    [EOFError], and nothing else, when no line left is an answer. *)
Theorem get_yes_no_first_answer (default : bool) (stdin : list string) :
  (∀ answer stdin',
     get_yes_no default stdin = Ok (answer, stdin') ↔
     ∃ skipped line,
       stdin = skipped ++ line :: stdin' ∧
       Forall (λ l, yes_no_answer default l = None) skipped ∧
       yes_no_answer default line = Some answer) ∧
  (∀ e,
     get_yes_no default stdin = Raise e ↔
     e = EOFError ∧ Forall (λ l, yes_no_answer default l = None) stdin).
Proof.
  induction stdin as [|line stdin [IHok IHraise]].
  { split.
    - intros answer stdin'. split; [discriminate|].
      intros (skipped & l & Heq & _). by destruct skipped.
    - intros e. simpl. split; [by intros [= <-]|by intros [-> _]]. }
  split.
  - intros answer stdin'. rewrite get_yes_no_step.
    destruct (yes_no_answer default line) as [a|] eqn:Hline.
    + split.
      * intros [= <- <-]. by exists [], line.
      * intros ([|l skipped] & l' & Heq & Hall & Hanswer).
        -- injection Heq as <- <-. congruence.
        -- injection Heq as <- _. apply Forall_cons in Hall as [Hl _].
           congruence.
    + rewrite IHok. split.
      * intros (skipped & l & -> & Hall & Hanswer).
        exists (line :: skipped), l. repeat split; [|done]. by constructor.
      * intros ([|l skipped] & l' & Heq & Hall & Hanswer).
        -- injection Heq as <- _. congruence.
        -- injection Heq as <- ->. apply Forall_cons in Hall as [_ Hall].
           by exists skipped, l'.
  - intros e. rewrite get_yes_no_step.
    destruct (yes_no_answer default line) as [a|] eqn:Hline.
    + split; [discriminate|]. intros (_ & Hall).
      apply Forall_cons in Hall as [Hl _]. congruence.
    + rewrite IHraise. split.
      * intros (-> & Hall). split; [done|]. by constructor.
      * intros (-> & Hall). apply Forall_cons in Hall as [_ Hall]. done.
Qed.

Lemma get_yes_no_first_answer_witness :
  get_yes_no false ["maybe"; " YES "; "x"] = Ok (true, ["x"]) ∧
  get_yes_no true ["yess"; "0"] = Raise EOFError.
Proof.
  destruct (get_yes_no_first_answer false ["maybe"; " YES "; "x"]) as [Hok _].
  destruct (get_yes_no_first_answer true ["yess"; "0"]) as [_ Hraise].
  split.
  - apply Hok. exists ["maybe"], " YES ".
    split; [reflexivity|]. split; [|reflexivity]. by repeat constructor.
  - apply Hraise. split; [reflexivity|]. by repeat constructor.
Defined.

(** ** Global filter values *)

Lemma get_input_optional line stdin :
  get_input false None (line :: stdin) = Ok (strip line, stdin).
Proof.
  simpl. destruct (truthy (strip line)) eqn:Hline; [done|].
  apply truthy_false in Hline. by rewrite Hline.
Qed.

Lemma collect_filter_values_short columns filter_values stdin :
  (length stdin < length columns)%nat →
  collect_filter_values columns filter_values stdin = Raise EOFError.
Proof.
  revert filter_values stdin.
  induction columns as [|[c d] columns IH]; intros fv stdin Hlen;
    [simpl in Hlen; lia|].
  destruct stdin as [|line stdin]; [done|].
  cbn [collect_filter_values]. unfold io_bind at 1.
  rewrite get_input_optional. simpl in Hlen.
  destruct (truthy (strip line)); [|apply IH; lia].
  unfold io_bind, io_lift. simpl. apply IH. lia.
Qed.

Lemma collect_filter_values_lines columns :
  NoDup (map fst columns) →
  ∀ filter_values lines stdin',
    length lines = length columns →
    ∃ gf,
      collect_filter_values columns filter_values (lines ++ stdin')
      = Ok (gf, stdin') ∧
      (∀ i column line,
         map fst columns !! i = Some column → lines !! i = Some line →
         gf !! column
         = match filter_answer line with
           | Some values => Some values
           | None => filter_values !! column
           end) ∧
      (∀ column, column ∉ map fst columns →
         gf !! column = filter_values !! column).
Proof.
  induction columns as [|[c d] columns IH]; intros Hnodup fv lines stdin' Hlen.
  { destruct lines; [|done]. exists fv. by repeat split. }
  destruct lines as [|line lines]; [done|].
  injection Hlen as Hlen. cbn [map fst] in Hnodup.
  apply NoDup_cons in Hnodup as [Hc Hnodup].
  cbn [collect_filter_values app]. unfold io_bind at 1.
  rewrite get_input_optional.
  assert (∃ fv',
            (if truthy (strip line)
             then
               io_bind (io_lift (split "," (strip line)))
                 (λ parts,
                    collect_filter_values columns
                      (<[c:=stripped_nonempty parts]> fv))
             else collect_filter_values columns fv) (lines ++ stdin')
            = collect_filter_values columns fv' (lines ++ stdin') ∧
            fv' !! c = match filter_answer line with
                       | Some values => Some values
                       | None => fv !! c
                       end ∧
            ∀ c', c' ≠ c → fv' !! c' = fv !! c') as (fv' & -> & Hfc & Hfother).
  { unfold filter_answer. destruct (truthy (strip line)).
    - eexists. split; [reflexivity|]. split.
      + by rewrite lookup_insert_eq.
      + intros c' Hne. by rewrite lookup_insert_ne.
    - by exists fv. }
  destruct (IH Hnodup fv' lines stdin' Hlen) as (gf & Hgf & Hin & Hout).
  exists gf. split; [done|]. split.
  - intros [|i] column l Hcol Hline; simpl in Hcol, Hline.
    + injection Hcol as <-. injection Hline as <-.
      by rewrite (Hout c Hc).
    + rewrite (Hin i column l Hcol Hline).
      assert (column ≠ c) as Hne.
      { intros ->. apply Hc. eapply list_elem_of_lookup_2. exact Hcol. }
      by rewrite (Hfother column Hne).
  - intros column Hnot. cbn [map fst] in Hnot.
    apply not_elem_of_cons in Hnot as [Hne Hnot].
    by rewrite (Hout column Hnot), (Hfother column Hne).
Qed.

(** X4: [collect_global_filter_values] reads exactly five lines, one for
    each of account_name, client_id, user_id, status and region in this
    order, and raises [EOFError] when fewer are left. A column gets the
    values of its own line and is absent if the line is blank; no other
    column is ever set. *)
Theorem collect_global_filter_values_five_lines (stdin : list string) :
  ((length stdin < 5)%nat →
     collect_global_filter_values stdin = Raise EOFError) ∧
  ((5 ≤ length stdin)%nat →
     ∃ gf,
       collect_global_filter_values stdin = Ok (gf, drop 5 stdin) ∧
       (∀ i column line,
          filter_column_names !! i = Some column → stdin !! i = Some line →
          gf !! column = filter_answer line) ∧
       (∀ column, column ∉ filter_column_names → gf !! column = None)).
Proof.
  unfold collect_global_filter_values. split.
  - intros Hlen. by apply collect_filter_values_short.
  - intros Hlen.
    assert (NoDup (map fst filter_columns_prompts)) as Hnodup.
    { compute_done. }
    destruct (collect_filter_values_lines filter_columns_prompts Hnodup ∅
                (take 5 stdin) (drop 5 stdin)) as (gf & Hgf & Hin & Hout).
    { rewrite length_take.
      change (length filter_columns_prompts) with 5%nat. lia. }
    rewrite take_drop in Hgf. exists gf. split; [done|]. split.
    + intros i column line Hcol Hline.
      assert (i < 5)%nat as Hi.
      { apply lookup_lt_Some in Hcol. simpl in Hcol. lia. }
      rewrite (Hin i column line Hcol); [|by rewrite lookup_take_lt].
      rewrite lookup_empty. by destruct (filter_answer line).
    + intros column Hnot. by rewrite (Hout column Hnot), lookup_empty.
Qed.

Lemma collect_global_filter_values_five_lines_witness :
  ∃ gf,
    collect_global_filter_values
      ["a'b"; ","; ""; " active , done,"; ""; "next"] = Ok (gf, ["next"]) ∧
    gf !! "account_name" = Some ["a'b"] ∧
    gf !! "client_id" = Some [] ∧
    gf !! "user_id" = None ∧
    gf !! "status" = Some ["active"; "done"] ∧
    collect_global_filter_values ["a"; "b"; "c"; "d"] = Raise EOFError.
Proof.
  destruct (collect_global_filter_values_five_lines
              ["a'b"; ","; ""; " active , done,"; ""; "next"])
    as (_ & gf & Hgf & Hin & _); [simpl; lia|].
  destruct (collect_global_filter_values_five_lines ["a"; "b"; "c"; "d"])
    as (Hshort & _).
  exists gf. split; [exact Hgf|].
  split; [exact (Hin 0%nat "account_name" "a'b" eq_refl eq_refl)|].
  split; [exact (Hin 1%nat "client_id" "," eq_refl eq_refl)|].
  split; [exact (Hin 2%nat "user_id" "" eq_refl eq_refl)|].
  split; [exact (Hin 3%nat "status" " active , done," eq_refl eq_refl)|].
  apply Hshort. simpl. lia.
Defined.

Lemma rstrip_idemp s : rstrip (rstrip s) = rstrip s.
Proof.
  induction s as [|c s IH]; [done|]. simpl.
  destruct (rstrip s) as [|a r] eqn:Hr.
  - destruct (isspace c) eqn:Hc; [done|]. simpl. by rewrite Hc.
  - change (rstrip (String c (String a r)))
      with (match rstrip (String a r) with
            | "" => if isspace c then "" else String c ""
            | String a' r' => String c (String a' r')
            end).
    by rewrite IH.
Qed.

Lemma lstrip_head s :
  lstrip s = "" ∨ ∃ c r, lstrip s = String c r ∧ isspace c = false.
Proof.
  induction s as [|c s IH]; [by left|]. simpl.
  destruct (isspace c) eqn:Hc; [done|]. right. by exists c, s.
Qed.

Lemma lstrip_rstrip c s :
  isspace c = false → lstrip (rstrip (String c s)) = rstrip (String c s).
Proof.
  intros Hc. simpl. destruct (rstrip s); simpl; rewrite ?Hc; simpl;
    by rewrite ?Hc.
Qed.

Lemma strip_idemp s : strip (strip s) = strip s.
Proof.
  unfold strip. destruct (lstrip_head s) as [->|(c & r & -> & Hc)]; [done|].
  by rewrite lstrip_rstrip, rstrip_idemp.
Qed.

Lemma stripped_nonempty_Forall parts :
  Forall (λ v, v ≠ "" ∧ strip v = v) (stripped_nonempty parts).
Proof.
  induction parts as [|v parts IH]; simpl; [constructor|].
  destruct (truthy (strip v)) eqn:Hv; [|done].
  constructor; [|done]. split; [by apply truthy_true|apply strip_idemp].
Qed.

(** X5: whatever the user types, [collect_global_filter_values] only sets
    keys among the five column names, and no value it stores is empty or has
    blanks around it. (The list itself may be empty: a line of commas.) *)
Theorem collect_global_filter_values_stores_stripped_values
    (stdin : list string) (gf : gmap string (list string))
    (stdin' : list string) (column : string) (values : list string) :
  collect_global_filter_values stdin = Ok (gf, stdin') →
  gf !! column = Some values →
  column ∈ filter_column_names ∧
  Forall (λ v, v ≠ "" ∧ strip v = v) values.
Proof.
  unfold collect_global_filter_values. intros Hgf Hlook.
  destruct (decide (length stdin < 5)%nat) as [Hshort|Hlong].
  { by rewrite collect_filter_values_short in Hgf. }
  assert (NoDup (map fst filter_columns_prompts)) as Hnodup by compute_done.
  destruct (collect_filter_values_lines filter_columns_prompts Hnodup ∅
              (take 5 stdin) (drop 5 stdin)) as (gf' & Hgf' & Hin & Hout).
  { rewrite length_take.
    change (length filter_columns_prompts) with 5%nat. lia. }
  rewrite take_drop, Hgf in Hgf'. injection Hgf' as <- _.
  destruct (decide (column ∈ filter_column_names)) as [Hcol|Hcol].
  - split; [done|].
    apply list_elem_of_lookup in Hcol as [i Hi].
    assert (i < 5)%nat as Hlt.
    { apply lookup_lt_Some in Hi. simpl in Hi. lia. }
    destruct (lookup_lt_is_Some_2 (take 5 stdin) i) as [line Hline].
    { rewrite length_take. lia. }
    rewrite (Hin i column line Hi Hline), lookup_empty in Hlook.
    unfold filter_answer in Hlook.
    destruct (truthy (strip line)); [|discriminate].
    injection Hlook as <-. apply stripped_nonempty_Forall.
  - by rewrite (Hout column Hcol), lookup_empty in Hlook.
Qed.

Lemma collect_global_filter_values_stores_stripped_values_witness :
  "status" ∈ filter_column_names ∧
  Forall (λ v, v ≠ "" ∧ strip v = v) ["active"; "done"].
Proof.
  eapply (collect_global_filter_values_stores_stripped_values
            [""; ""; ""; " active , done,"; ""; "next"] _ _ "status").
  - vm_compute. reflexivity.
  - vm_compute. reflexivity.
Defined.

(** X6: for the resolver a column stored with the empty list (the answer
    ",") is the same as a column that is not there. *)
Theorem resolver_empty_list_as_absent
    (table_name column : string) (global_filters : gmap string (list string)) :
  get_table_filter_columns table_name (<[column := []]> global_filters)
  = get_table_filter_columns table_name (delete column global_filters).
Proof.
  rewrite !get_table_filter_columns_omap.
  apply list_omap_ext, Forall2_same_length_lookup_2; [done|].
  intros i c c' Hc Hc'. rewrite Hc in Hc'. injection Hc' as <-.
  unfold resolve_column.
  destruct (decide (column = c)) as [->|Hne].
  - by rewrite lookup_insert_eq, lookup_delete_eq.
  - by rewrite lookup_insert_ne, lookup_delete_ne.
Qed.

(** ** One table at the prompts *)

Lemma get_input_required_nonempty default stdin value stdin' :
  get_input true default stdin = Ok (value, stdin') → value ≠ "".
Proof.
  induction stdin as [|line stdin IH]; simpl; [discriminate|].
  destruct (truthy (strip line)) eqn:Hline.
  { intros [= <- _]. by apply truthy_true. }
  destruct default as [d|]; [|done].
  destruct (truthy d) eqn:Hd; [|done].
  intros [= <- _]. by apply truthy_true.
Qed.

Lemma get_input_default_line d line stdin :
  d ≠ "" →
  get_input true (Some d) (line :: stdin)
  = Ok (if truthy (strip line) then strip line else d, stdin).
Proof.
  intros Hd. apply truthy_true in Hd. simpl. rewrite Hd.
  by destruct (truthy (strip line)).
Qed.

(** X7: a table [collect_table_info] returns has every key, a source table
    id and a view name that are not empty, and the filter columns the
    resolver gives for its id; the renderer accepts it under any key, with an
    [additional_where] line and a [description] line exactly when the user
    gave one. *)
Theorem collect_table_info_renders
    (global_filters : gmap string (list string)) (stdin : list string)
    (table_info : Table.t) (stdin' : list string) :
  collect_table_info global_filters stdin = Ok (table_info, stdin') →
  ∃ source_table_id view_name description additional_where,
    table_info
    = Table.mk (Some source_table_id) (Some view_name)
        (Some (get_table_filter_columns source_table_id global_filters))
        (Some additional_where) (Some description) ∧
    source_table_id ≠ "" ∧ view_name ≠ "" ∧
    ∀ table_key, ∃ lines,
      table_lines (table_key, table_info) = Ok lines ∧
      count_prefixed additional_where_line lines
      = (if truthy additional_where then 1 else 0)%nat ∧
      count_prefixed description_line lines
      = (if truthy description then 1 else 0)%nat.
Proof.
  unfold collect_table_info. intros H.
  apply io_bind_Ok in H as (sid & s1 & Hsid & H).
  apply io_bind_Ok in H as (vn & s2 & Hvn & H).
  apply io_bind_Ok in H as (desc & s3 & _ & H).
  apply io_bind_Ok in H as (aw & s4 & _ & H).
  injection H as <- _.
  exists sid, vn, desc, aw. split; [done|].
  split; [by apply get_input_required_nonempty in Hsid|].
  split; [by apply get_input_required_nonempty in Hvn|].
  intros table_key.
  set (item := (table_key,
                Table.mk (Some sid) (Some vn)
                  (Some (get_table_filter_columns sid global_filters))
                  (Some aw) (Some desc))).
  assert (wf_table item = true) as Hwf.
  { unfold wf_table, item. cbn [snd Table.source_table_id Table.view_name
      Table.filter_columns present andb]. apply resolver_wf. }
  pose proof (ok_or_key_error_table item) as Hok. rewrite Hwf in Hok.
  destruct Hok as [lines Hlines]. exists lines. split; [done|].
  by apply table_lines_count in Hlines as (_ & ? & ? & _).
Qed.

Lemma collect_table_info_renders_witness :
  ∃ table_info lines,
    collect_table_info {[ "status" := ["active"] ]}
      [""; "orders"; ""; "Orders of the client"; ""; "next"]
    = Ok (table_info, ["next"]) ∧
    Table.view_name table_info = Some "orders" ∧
    table_lines ("orders", table_info) = Ok lines ∧
    count_prefixed additional_where_line lines = 0%nat ∧
    count_prefixed description_line lines = 1%nat.
Proof.
  edestruct (collect_table_info_renders {[ "status" := ["active"] ]}
               [""; "orders"; ""; "Orders of the client"; ""; "next"])
    as (sid & vn & desc & aw & Heq & _ & _ & Hlines);
    [vm_compute; reflexivity|].
  injection Heq as <- <- _ <- <-.
  destruct (Hlines "orders") as (lines & Hl & Haw & Hdesc).
  eexists _, lines.
  split; [vm_compute; reflexivity|]. split; [reflexivity|].
  split; [exact Hl|]. split; [exact Haw|exact Hdesc].
Defined.

(** X8: at the prompts of [collect_table_info], after a source table id,
    a blank answer for the view name gives the source table id, and the
    blank answers for the description and the WHERE clause give empty
    strings. *)
Theorem collect_table_info_answers
    (global_filters : gmap string (list string))
    (id_line view_line description_line where_line : string)
    (stdin : list string) :
  strip id_line ≠ "" →
  collect_table_info global_filters
    (id_line :: view_line :: description_line :: where_line :: stdin)
  = Ok (Table.mk (Some (strip id_line))
          (Some (if truthy (strip view_line) then strip view_line
                 else strip id_line))
          (Some (get_table_filter_columns (strip id_line) global_filters))
          (Some (strip where_line)) (Some (strip description_line)),
        stdin).
Proof.
  intros Hid. unfold collect_table_info, io_bind.
  assert (get_input true None (id_line :: view_line :: description_line
                                 :: where_line :: stdin)
          = Ok (strip id_line,
                view_line :: description_line :: where_line :: stdin)) as ->.
  { simpl. apply truthy_true in Hid. by rewrite Hid. }
  rewrite get_input_default_line by done.
  by rewrite !get_input_optional.
Qed.

Lemma collect_table_info_answers_witness :
  collect_table_info ∅ [" users "; " "; ""; "active = 1"; "next"]
  = Ok (Table.mk (Some "users") (Some "users") (Some [])
          (Some "active = 1") (Some ""),
        ["next"]).
Proof.
  assert (strip " users " ≠ "") as Hid by (vm_compute; discriminate).
  exact (collect_table_info_answers ∅ " users " " " "" "active = 1" ["next"]
           Hid).
Defined.

(** ** The key derived from the client name *)

Lemma lower_map_string s : lower s = map_string tolower s.
Proof. induction s as [|c s IH]; simpl; by rewrite ?IH. Qed.

Lemma replace_char (a b : ascii) s :
  replace (String a "") (String b "") s
  = map_string (λ c, if Ascii.eqb c a then b else c) s.
Proof.
  unfold replace. induction s as [|c s IH]; [done|].
  cbn [replace_from map_string String.prefix String.length Nat.sub].
  rewrite IH. destruct (ascii_dec a c) as [->|Hne].
  - rewrite Ascii.eqb_refl. by destruct s.
  - apply not_eq_sym, Ascii.eqb_neq in Hne. by rewrite Hne.
Qed.

Lemma map_string_compose f g s :
  map_string g (map_string f s) = map_string (λ c, g (f c)) s.
Proof. induction s as [|c s IH]; simpl; by rewrite ?IH. Qed.

Lemma map_string_ext f g s :
  (∀ c, f c = g c) → map_string f s = map_string g s.
Proof. intros Hfg. induction s as [|c s IH]; simpl; by rewrite ?IH, ?Hfg. Qed.

Lemma key_char_safe c : key_safe (key_char c) = true.
Proof. by destruct c as [[] [] [] [] [] [] [] []]. Qed.

Lemma key_char_ascii c : is_ascii c = true → is_ascii (key_char c) = true.
Proof. by destruct c as [[] [] [] [] [] [] [] []]. Qed.

(** X9: for a client name of ASCII characters, the key [main] derives from
    it has the length of the name and, place by place, its characters in
    lower case with the spaces and hyphens turned into underscores; so it
    is ASCII too and holds no space, no hyphen and no upper-case letter. *)
Theorem derived_key_characters (client_name : string) :
  all_chars is_ascii client_name = true →
  replace "-" "_" (replace " " "_" (lower client_name))
  = map_string key_char client_name ∧
  String.length (replace "-" "_" (replace " " "_" (lower client_name)))
  = String.length client_name ∧
  all_chars key_safe (replace "-" "_" (replace " " "_" (lower client_name)))
  = true ∧
  all_chars is_ascii (replace "-" "_" (replace " " "_" (lower client_name)))
  = true.
Proof.
  intros Hascii.
  assert (replace "-" "_" (replace " " "_" (lower client_name))
          = map_string key_char client_name) as ->.
  { rewrite lower_map_string.
    change " " with (String " " "") at 1.
    change "_" with (String "_" "").
    change "-" with (String "-" "").
    rewrite !replace_char, !map_string_compose.
    apply map_string_ext. intros c.
    by destruct c as [[] [] [] [] [] [] [] []]. }
  split; [done|]. split; [|split].
  - clear Hascii. induction client_name as [|c s IH]; simpl; by rewrite ?IH.
  - clear Hascii. induction client_name as [|c s IH]; [done|].
    simpl. by rewrite key_char_safe, IH.
  - induction client_name as [|c s IH]; [done|].
    simpl in Hascii. apply andb_true_iff in Hascii as [Hc Hs].
    simpl. by rewrite (key_char_ascii c Hc), (IH Hs).
Qed.

Lemma derived_key_characters_witness :
  replace "-" "_" (replace " " "_" (lower "Acme-Co X")) = "acme_co_x" ∧
  String.length (replace "-" "_" (replace " " "_" (lower "Acme-Co X")))
  = String.length "Acme-Co X" ∧
  all_chars key_safe (replace "-" "_" (replace " " "_" (lower "Acme-Co X")))
  = true ∧
  all_chars is_ascii (replace "-" "_" (replace " " "_" (lower "Acme-Co X")))
  = true.
Proof.
  apply (derived_key_characters "Acme-Co X"). vm_compute. reflexivity.
Defined.

(** ** Months back, read and written *)











(** ** What [main] raises *)

Lemma get_input_only_EOF required default stdin e :
  get_input required default stdin = Raise e → e = EOFError.
Proof.
  induction stdin as [|line stdin IH]; simpl; [by intros [= <-]|].
  destruct (truthy (strip line)); [discriminate|].
  destruct default as [d|].
  - destruct (truthy d); [discriminate|]. by destruct required.
  - by destruct required.
Qed.

Lemma get_yes_no_only_EOF default stdin e :
  get_yes_no default stdin = Raise e → e = EOFError.
Proof.
  induction stdin as [|line stdin IH]; [by intros [= <-]|].
  rewrite get_yes_no_step. by destruct (yes_no_answer default line).
Qed.

Lemma io_bind_Raise {A B} (c : IO A) (k : A → IO B) stdin e :
  io_bind c k stdin = Raise e →
  c stdin = Raise e ∨ ∃ a stdin', c stdin = Ok (a, stdin') ∧ k a stdin' = Raise e.
Proof.
  unfold io_bind. destruct (c stdin) as [[a stdin']|e']; [eauto|].
  intros [= <-]. by left.
Qed.

Lemma read_months_back_raises stdin e :
  read_months_back stdin = Raise e → input_error e.
Proof.
  unfold read_months_back. intros H.
  apply io_bind_Raise in H as [H|(s & stdin' & _ & H)].
  - left. by apply get_input_only_EOF in H.
  - right. unfold io_lift, int in H.
    destruct (match strip s with
              | String "-" s' => Z.opp <$> int_digits 0 false s'
              | String "+" s' => int_digits 0 false s'
              | s' => int_digits 0 false s'
              end); [|by injection H as <-].
    destruct (count_digits (strip s) <=? max_str_digits)%nat;
      [discriminate|by injection H as <-].
Qed.

Lemma collect_filter_values_raises columns filter_values stdin e :
  collect_filter_values columns filter_values stdin = Raise e → e = EOFError.
Proof.
  revert filter_values stdin.
  induction columns as [|[c d] columns IH]; intros fv stdin; [discriminate|].
  cbn [collect_filter_values]. intros H.
  apply io_bind_Raise in H as [H|(value & stdin' & _ & H)].
  - by apply get_input_only_EOF in H.
  - destruct (truthy value); [|by apply IH in H].
    apply io_bind_Raise in H as [H|(parts & stdin'' & _ & H)].
    + discriminate.
    + by apply IH in H.
Qed.

Lemma while_yes_raises {St : Type} (body : St → IO St) (P : exn → Prop) :
  P EOFError →
  (∀ s stdin e, body s stdin = Raise e → P e) →
  ∀ s stdin e, while_yes body s stdin = Raise e → P e.
Proof.
  intros HEOF Hbody s stdin e. unfold while_yes.
  generalize (length stdin). intros fuel. revert s stdin.
  induction fuel as [|fuel IH]; intros s stdin; simpl.
  - destruct (get_yes_no false stdin) as [[[] stdin1]|e1] eqn:Hyes.
    + destruct (body s stdin1) as [[s2 stdin2]|e2] eqn:Hb.
      * by intros [= <-].
      * intros [= <-]. eauto.
    + discriminate.
    + intros [= <-]. by apply get_yes_no_only_EOF in Hyes as ->.
  - destruct (get_yes_no false stdin) as [[[] stdin1]|e1] eqn:Hyes.
    + destruct (body s stdin1) as [[s2 stdin2]|e2] eqn:Hb.
      * apply IH.
      * intros [= <-]. eauto.
    + discriminate.
    + intros [= <-]. by apply get_yes_no_only_EOF in Hyes as ->.
Qed.

Lemma collect_user_input_raises stdin e :
  collect_user_input stdin = Raise e → input_error e.
Proof.
  unfold collect_user_input. intros H.
  apply io_bind_Raise in H as [H|(project_id & s1 & _ & H)];
    [left; by apply get_input_only_EOF in H|].
  apply io_bind_Raise in H as [H|(region & s2 & _ & H)];
    [left; by apply get_input_only_EOF in H|].
  apply io_bind_Raise in H as [H|(view_prefix & s3 & _ & H)];
    [left; by apply get_input_only_EOF in H|].
  apply io_bind_Raise in H as [H|(client & s4 & _ & H)];
    [left; by apply get_input_only_EOF in H|].
  apply io_bind_Raise in H as [H|(gf & s5 & _ & H)];
    [left; by apply collect_filter_values_raises in H|].
  apply io_bind_Raise in H as [H|(dataset_key & s6 & _ & H)];
    [left; by apply get_input_only_EOF in H|].
  apply io_bind_Raise in H as [H|(months_back & s7 & _ & H)];
    [by apply read_months_back_raises in H|].
  apply io_bind_Raise in H as [H|(entries & s8 & _ & H)]; [|discriminate].
  revert H. apply while_yes_raises; [by left|].
  intros entries stdin' e' H. unfold collect_output_dataset in H.
  apply io_bind_Raise in H as [H|(k & t1 & _ & H)];
    [left; by apply get_input_only_EOF in H|].
  apply io_bind_Raise in H as [H|(mb & t2 & _ & H)]; [|discriminate].
  by apply read_months_back_raises in H.
Qed.

(** Up to the file, [main] raises for its input only. *)
Lemma main_raises stdin e : main stdin = Raise e → input_error e.
Proof.
  rewrite main_spec_pipeline. unfold spec_pipeline. intros H.
  apply io_bind_Raise in H as [H|([input gf] & s1 & _ & H)];
    [by apply collect_user_input_raises in H|].
  cbn [fst snd] in H.
  pose proof (ok_or_key_error_content (spec_assemble input gf)) as Hok.
  rewrite spec_assemble_wf in Hok. destruct Hok as [text Htext].
  rewrite Htext in H.
  apply io_bind_Raise in H as [H|(text' & s2 & _ & H)]; [discriminate|].
  apply io_bind_Raise in H as [H|(file & s3 & _ & H)]; [|discriminate].
  left. by apply get_input_only_EOF in H.
Qed.

(** X11: the whole [main] raises [EOFError] (stdin ends before the last
    prompt), [ValueError] (an answer for the months that [int] refuses) or
    [SystemExit] with the code 1, the last exactly when everything was read,
    assembled and rendered and the file could not be written; it never
    raises [KeyError]. When it returns, the text written is the rendering of
    the configuration it assembled, under the file name it read. *)
Theorem main_with_file_outcomes
    (can_write : string → string → bool) (stdin : list string) :
  (∀ e,
     main_with_file can_write stdin = Raise e →
     (e = EOFError ∨ e = ValueError ∨ e = SystemExit 1) ∧
     (∀ key, e ≠ KeyError key) ∧
     (e = SystemExit 1 ↔
      ∃ st stdin',
        main stdin = Ok (st, stdin') ∧
        can_write (output_file st) (content st) = false)) ∧
  (∀ file text stdin',
     main_with_file can_write stdin = Ok ((file, text), stdin') →
     ∃ st,
       main stdin = Ok (st, stdin') ∧
       file = output_file st ∧
       generate_tfvars_content (config st) = Ok text ∧
       can_write file text = true).
Proof.
  unfold main_with_file, io_bind. split.
  - intros e H.
    destruct (main stdin) as [[st stdin']|e'] eqn:Hmain.
    + destruct (can_write (output_file st) (content st)) eqn:Hwrite;
        [discriminate|].
      injection H as <-. split; [auto|]. split; [discriminate|].
      split; [|done]. intros _. by exists st, stdin'.
    + injection H as <-. apply main_raises in Hmain as [-> | ->].
      * split; [auto|]. split; [discriminate|].
        split; [discriminate|]. by intros (? & ? & ? & _).
      * split; [auto|]. split; [discriminate|].
        split; [discriminate|]. by intros (? & ? & ? & _).
  - intros file text stdin' H.
    destruct (main stdin) as [[st s1]|e'] eqn:Hmain; [|discriminate].
    destruct (can_write (output_file st) (content st)) eqn:Hwrite;
      [|discriminate].
    injection H as <- <- <-. exists st. split; [done|]. split; [done|].
    apply main_Ok in Hmain as (_ & _ & _ & _ & _ & _ & _ & Htext).
    by split.
Qed.

Lemma main_with_file_outcomes_witness :
  main_with_file (λ _ _, false) acme_session = Raise (SystemExit 1) ∧
  (∃ st stdin',
     main acme_session = Ok (st, stdin') ∧
     (λ _ _ : string, false) (output_file st) (content st) = false) ∧
  (∃ st,
     main acme_session = Ok (st, []) ∧
     "terraform.tfvars" = output_file st ∧
     (λ _ _ : string, true) "terraform.tfvars" (content st) = true).
Proof.
  assert (main_with_file (λ _ _, false) acme_session = Raise (SystemExit 1))
    as Hraise by (vm_compute; reflexivity).
  split; [exact Hraise|]. split.
  - destruct (main_with_file_outcomes (λ _ _, false) acme_session)
      as [Hraises _].
    destruct (Hraises (SystemExit 1) Hraise) as (_ & _ & Hexit).
    by apply Hexit.
  - destruct (main_with_file_outcomes (λ _ _, true) acme_session)
      as [_ Hreturns].
    edestruct (Hreturns "terraform.tfvars") as (st & Hmain & Hfile & Htext & Hw);
      [vm_compute; reflexivity|].
    exists st. by split; [|split].
Defined.

(** ** What [main] builds from the answers *)

Lemma main_of_input stdin input gf rest st stdin' :
  collect_user_input stdin = Ok ((input, gf), rest) →
  main stdin = Ok (st, stdin') →
  config st = spec_assemble input gf ∧
  client_name st = in_client_name input ∧
  global_filters st = gf ∧
  get_input true (Some "terraform.tfvars") rest = Ok (output_file st, stdin').
Proof.
  rewrite main_spec_pipeline. unfold spec_pipeline. intros Hcollect H.
  unfold io_bind at 1 in H. rewrite Hcollect in H. cbn [fst snd] in H.
  apply io_bind_Ok in H as (text & s1 & Htext & H).
  apply io_lift_Ok in Htext as [_ ->].
  apply io_bind_Ok in H as (file & s2 & Hfile & H).
  injection H as <- <-. done.
Qed.

Lemma collect_user_input_nonempty stdin input gf rest :
  collect_user_input stdin = Ok ((input, gf), rest) →
  in_project_id input ≠ "" ∧ in_region input ≠ "" ∧
  in_view_prefix input ≠ "" ∧ in_client_name input ≠ "" ∧
  in_output_datasets input ≠ [] ∧
  Forall (λ entry, entry.1 ≠ "") (in_output_datasets input).
Proof.
  unfold collect_user_input. intros H.
  apply io_bind_Ok in H as (project_id & s1 & Hp & H).
  apply io_bind_Ok in H as (region & s2 & Hr & H).
  apply io_bind_Ok in H as (view_prefix & s3 & Hv & H).
  apply io_bind_Ok in H as (client & s4 & Hc & H).
  apply io_bind_Ok in H as (gf' & s5 & _ & H).
  apply io_bind_Ok in H as (dataset_key & s6 & Hk & H).
  apply io_bind_Ok in H as (months_back & s7 & _ & H).
  apply io_bind_Ok in H as (entries & s8 & Hloop & H).
  injection H as <- _ _.
  cbn [in_project_id in_region in_view_prefix in_client_name
       in_output_datasets].
  apply get_input_required_nonempty in Hp, Hr, Hv, Hc, Hk.
  repeat (split; [done|]).
  revert Hloop.
  apply (while_yes_invariant collect_output_dataset
           (λ entries, entries ≠ [] ∧ Forall (λ entry, entry.1 ≠ "") entries)).
  - intros l t l' t' [Hne Hall] Hbody. unfold collect_output_dataset in Hbody.
    apply io_bind_Ok in Hbody as (k & t1 & Hkey & Hbody).
    apply io_bind_Ok in Hbody as (mb & t2 & _ & Hbody).
    injection Hbody as <- _. apply get_input_required_nonempty in Hkey.
    split; [by destruct l|]. apply Forall_app. split; [done|].
    by repeat constructor.
  - split; [done|]. by repeat constructor.
Qed.

Lemma dict_set_keys {V} k (v : V) d :
  map fst (dict_set k v d)
  = if bool_decide (k ∈ map fst d) then map fst d else map fst d ++ [k].
Proof.
  induction d as [|[k' v'] d IH]; [done|]. simpl.
  destruct (String.eqb_spec k k') as [->|Hne].
  - rewrite bool_decide_eq_true_2; [done|]. apply list_elem_of_here.
  - simpl. rewrite IH. case_bool_decide as Hin.
    + rewrite bool_decide_eq_true_2; [done|]. by apply list_elem_of_further.
    + rewrite bool_decide_eq_false_2; [done|].
      intros [?|?]%elem_of_cons; done.
Qed.

Lemma dict_set_elem {V} k (v : V) d : (k, v) ∈ dict_set k v d.
Proof.
  induction d as [|[k' v'] d IH]; simpl; [apply list_elem_of_here|].
  destruct (String.eqb k k'); [apply list_elem_of_here|].
  by apply list_elem_of_further.
Qed.

Lemma dict_set_other {V} k (v : V) d k' v' :
  k' ≠ k → (k', v') ∈ d → (k', v') ∈ dict_set k v d.
Proof.
  intros Hne. induction d as [|[k0 v0] d IH]; simpl;
    [by intros ?%elem_of_nil|].
  intros [Heq|Hin]%elem_of_cons.
  - injection Heq as <- <-.
    destruct (String.eqb_spec k k') as [->|_]; [done|apply list_elem_of_here].
  - destruct (String.eqb_spec k k0) as [->|_];
      apply list_elem_of_further; [done|by apply IH].
Qed.

Lemma assembled_outputs client entries :
  let odc := foldl (spec_add_output_dataset client) [] entries in
  NoDup (map fst odc) ∧
  (∀ k, k ∈ map fst odc ↔ k ∈ map fst entries) ∧
  head (map fst odc) = head (map fst entries) ∧
  (∀ before k mb after,
     entries = before ++ (k, mb) :: after → k ∉ map fst after →
     (k, output_dataset k mb client) ∈ odc).
Proof.
  induction entries as [|[k mb] entries (Hnodup & Hkeys & Hhead & Hlast)]
    using rev_ind.
  { repeat split; try done; try constructor.
    intros before k mb after Heq. by destruct before. }
  cbn zeta in *. rewrite foldl_snoc.
  set (odc := foldl (spec_add_output_dataset client) [] entries) in *.
  unfold spec_add_output_dataset. cbn [fst snd].
  rewrite dict_set_keys, map_app. cbn [map fst].
  split; [|split; [|split]].
  - case_bool_decide as Hin; [done|].
    apply NoDup_app. split; [done|]. split; [|apply NoDup_singleton].
    intros x Hx Hx'. apply list_elem_of_singleton in Hx' as ->. done.
  - intros x. case_bool_decide as Hin.
    + rewrite elem_of_app, list_elem_of_singleton, <- Hkeys.
      split; [by left|]. by intros [?| ->].
    + by rewrite !elem_of_app, !list_elem_of_singleton, Hkeys.
  - case_bool_decide as Hin.
    + rewrite Hhead. destruct entries as [|e entries]; [|done].
      simpl in Hin. by apply elem_of_nil in Hin.
    + destruct entries as [|e entries]; simpl in *.
      * by destruct (map fst odc).
      * destruct (map fst odc); [done|]. done.
  - intros before k' mb' after Heq Hnot.
    destruct after as [|a after _] using rev_ind.
    + apply app_inj_tail in Heq as [_ [= <- <-]]. apply dict_set_elem.
    + rewrite app_comm_cons, app_assoc in Heq.
      apply app_inj_tail in Heq as [-> <-].
      rewrite map_app, not_elem_of_app in Hnot. destruct Hnot as [Hnot Hne].
      cbn [map fst] in Hne. rewrite list_elem_of_singleton in Hne.
      apply dict_set_other; [done|]. by apply (Hlast before k' mb' after).
Qed.

Lemma main_collects stdin st stdin' :
  main stdin = Ok (st, stdin') →
  ∃ input gf rest, collect_user_input stdin = Ok ((input, gf), rest).
Proof.
  rewrite main_spec_pipeline. unfold spec_pipeline. intros H.
  apply io_bind_Ok in H as ([input gf] & rest & Hcollect & _). eauto.
Qed.

(** X12: in a run of [main] that reaches the file, the project id, the
    region, the view prefix, the client name and the file name are never
    empty, there is at least one output dataset and no output dataset has
    the empty key. *)
Theorem main_required_answers_nonempty
    (stdin : list string) (st : main_locals) (stdin' : list string) :
  main stdin = Ok (st, stdin') →
  ∃ project_id region view_prefix output_datasets_config,
    Config.project_id (config st) = Some project_id ∧
    Config.region (config st) = Some region ∧
    Config.view_prefix (config st) = Some view_prefix ∧
    Config.output_datasets_config (config st) = Some output_datasets_config ∧
    project_id ≠ "" ∧ region ≠ "" ∧ view_prefix ≠ "" ∧
    client_name st ≠ "" ∧ output_file st ≠ "" ∧
    output_datasets_config ≠ [] ∧
    Forall (λ item, item.1 ≠ "") output_datasets_config.
Proof.
  intros Hmain.
  destruct (main_collects _ _ _ Hmain) as (input & gf & rest & Hcollect).
  destruct (main_of_input _ _ _ _ _ _ Hcollect Hmain)
    as (Hcfg & Hclient & _ & Hfile).
  apply collect_user_input_nonempty in Hcollect
    as (Hp & Hr & Hv & Hc & Hne & Hkeys).
  apply get_input_required_nonempty in Hfile.
  rewrite Hcfg, Hclient. unfold spec_assemble.
  eexists _, _, _, _. repeat (split; [reflexivity|]).
  repeat (split; [done|]).
  destruct (assembled_outputs (in_client_name input) (in_output_datasets input))
    as (_ & Hsame & Hhead & _).
  split.
  - intros Hnil. rewrite Hnil in Hhead.
    by destruct (in_output_datasets input).
  - apply Forall_forall. intros [k d] Hin. cbn [fst].
    assert (k ∈ map fst (in_output_datasets input)) as Hk.
    { apply Hsame. by apply (list_elem_of_fmap_2 fst) in Hin. }
    apply list_elem_of_fmap in Hk as (entry & -> & Hentry).
    rewrite Forall_forall in Hkeys. by apply Hkeys.
Qed.

Lemma main_required_answers_nonempty_witness :
  ∃ st stdin' project_id region view_prefix output_datasets_config,
    main acme_session = Ok (st, stdin') ∧
    Config.project_id (config st) = Some project_id ∧
    Config.region (config st) = Some region ∧
    Config.view_prefix (config st) = Some view_prefix ∧
    Config.output_datasets_config (config st) = Some output_datasets_config ∧
    project_id ≠ "" ∧ region ≠ "" ∧ view_prefix ≠ "" ∧
    client_name st ≠ "" ∧ output_file st ≠ "" ∧
    output_datasets_config ≠ [] ∧
    Forall (λ item, item.1 ≠ "") output_datasets_config.
Proof.
  eexists _, _.
  edestruct (main_required_answers_nonempty acme_session) as (p & r & v & o & H);
    [vm_compute; reflexivity|].
  exists p, r, v, o. split; [vm_compute; reflexivity|]. exact H.
Defined.

(** X13: the output datasets [main] builds have distinct keys, the keys the
    user gave, the first one given coming first; when a key was given more
    than once, its one entry has the months of the last time. *)
Theorem main_output_datasets_last_entry_wins
    (stdin : list string) (input : UserInputRecord)
    (gf : gmap string (list string)) (rest : list string)
    (st : main_locals) (stdin' : list string) :
  collect_user_input stdin = Ok ((input, gf), rest) →
  main stdin = Ok (st, stdin') →
  ∃ output_datasets_config,
    Config.output_datasets_config (config st) = Some output_datasets_config ∧
    NoDup (map fst output_datasets_config) ∧
    (∀ key, key ∈ map fst output_datasets_config
            ↔ key ∈ map fst (in_output_datasets input)) ∧
    head (map fst output_datasets_config)
    = head (map fst (in_output_datasets input)) ∧
    (∀ before key months_back after,
       in_output_datasets input = before ++ (key, months_back) :: after →
       key ∉ map fst after →
       ∃ dataset,
         (key, dataset) ∈ output_datasets_config ∧
         OutputDataset.months_back dataset = Some months_back ∧
         OutputDataset.dataset_id dataset = Some (key +:+ "_filtered") ∧
         ∀ dataset', (key, dataset') ∈ output_datasets_config →
                     dataset' = dataset).
Proof.
  intros Hcollect Hmain.
  destruct (main_of_input _ _ _ _ _ _ Hcollect Hmain) as (Hcfg & Hclient & _).
  rewrite Hcfg. eexists. split; [reflexivity|].
  destruct (assembled_outputs (in_client_name input)
              (in_output_datasets input)) as (Hnodup & Hkeys & Hhead & Hlast).
  repeat (split; [done|]).
  intros before key months_back after Heq Hnot.
  exists (output_dataset key months_back (in_client_name input)).
  split; [by apply (Hlast before key months_back after)|].
  split; [reflexivity|]. split; [reflexivity|].
  intros dataset' Hin.
  pose proof (Hlast before key months_back after Heq Hnot) as Hin'.
  apply list_elem_of_lookup in Hin as [i Hi].
  apply list_elem_of_lookup in Hin' as [j Hj].
  assert (i = j) as ->.
  { eapply NoDup_lookup; [exact Hnodup| |].
    - by rewrite list_lookup_fmap, Hi.
    - by rewrite list_lookup_fmap, Hj. }
  congruence.
Qed.

Lemma main_output_datasets_last_entry_wins_witness :
  ∃ st stdin' input gf rest dataset,
    collect_user_input two_datasets_session = Ok ((input, gf), rest) ∧
    in_output_datasets input = [("main", 12); ("fin", 18); ("main", 3)] ∧
    main two_datasets_session = Ok (st, stdin') ∧
    (map fst <$> Config.output_datasets_config (config st))
    = Some ["main"; "fin"] ∧
    (("main", dataset)
     ∈ default [] (Config.output_datasets_config (config st))) ∧
    OutputDataset.months_back dataset = Some 3.
Proof.
  edestruct (main_output_datasets_last_entry_wins two_datasets_session)
    as (odc & Hodc & _ & _ & _ & Hlast);
    [vm_compute; reflexivity|vm_compute; reflexivity|].
  destruct (Hlast [("main", 12); ("fin", 18)] "main" 3 [])
    as (dataset & Hin & Hmonths & _); [reflexivity|apply not_elem_of_nil|].
  eexists _, _, _, _, _, dataset.
  split; [vm_compute; reflexivity|]. split; [reflexivity|].
  split; [vm_compute; reflexivity|]. split; [reflexivity|].
  split; [|exact Hmonths].
  injection Hodc as <-. exact Hin.
Defined.

(** ** Renderer: the order of the blocks *)

Lemma lines_with_prefix_app p l1 l2 :
  lines_with_prefix p (l1 ++ l2)
  = lines_with_prefix p l1 ++ lines_with_prefix p l2.
Proof. apply List.filter_app. Qed.

Lemma lines_with_prefix_cons p l ls :
  lines_with_prefix p (l :: ls)
  = if String.prefix p l then l :: lines_with_prefix p ls
    else lines_with_prefix p ls.
Proof. reflexivity. Qed.

Lemma lines_with_prefix_nil p : lines_with_prefix p [] = [].
Proof. reflexivity. Qed.

Lemma lines_with_prefix_for_each {A} p (g : A → list string)
    (body : A → result (list string)) items lines :
  for_each body items = Ok lines →
  (∀ x ls, x ∈ items → body x = Ok ls → lines_with_prefix p ls = g x) →
  lines_with_prefix p lines = concat (map g items).
Proof.
  revert lines. induction items as [|x items IH]; intros lines Hfor Hbody.
  - by apply Ok_inj in Hfor as <-.
  - simpl in Hfor. apply rbind_Ok in Hfor as (ls & Hx & Hfor).
    apply rbind_Ok in Hfor as (ls' & Hitems & Hfor).
    apply Ok_inj in Hfor as <-.
    rewrite lines_with_prefix_app. simpl. f_equal.
    + apply Hbody; [apply list_elem_of_here|done].
    + apply IH; [done|]. intros y ly Hy. apply Hbody.
      by apply list_elem_of_further.
Qed.

Lemma concat_map_nil {A B} (l : list A) : concat (map (λ _, @nil B) l) = [].
Proof. induction l; simpl; auto. Qed.

Lemma concat_map_singleton {A B} (h : A → B) (l : list A) :
  concat (map (λ x, [h x]) l) = map h l.
Proof. induction l; simpl; by rewrite ?IHl. Qed.

Lemma block_header_top key :
  String.prefix top_block_start (block_header "  " key) = true.
Proof.
  unfold top_block_start, block_header, quoted.
  set (rest := key +:+ DQ). set (tail := " = {").
  change (String.prefix "" (rest +:+ tail) = true).
  by destruct (rest +:+ tail).
Qed.

Ltac filter_lines :=
  rewrite ?lines_with_prefix_app, ?lines_with_prefix_cons,
    ?lines_with_prefix_nil;
  repeat match goal with
  | |- context [String.prefix top_block_start
                  ("  " +:+ quoted ?k +:+ " = {")] =>
      change ("  " +:+ quoted k +:+ " = {") with (block_header "  " k);
      rewrite (block_header_top k)
  end;
  unfold top_block_start;
  eval_prefix; cbv beta iota.

Lemma filter_column_lines_top filter_col ls :
  filter_column_lines filter_col = Ok ls →
  lines_with_prefix top_block_start ls = [].
Proof.
  unfold filter_column_lines. intros H.
  apply rbind_Ok in H as (cn & _ & H).
  apply rbind_Ok in H as (cond & _ & H).
  apply rbind_Ok in H as (ol & Hol & H). apply Ok_inj in H as <-.
  case_bool_decide.
  - apply rbind_Ok in Hol as (op & _ & Hol). apply Ok_inj in Hol as <-.
    filter_lines. done.
  - apply Ok_inj in Hol as <-. filter_lines. done.
Qed.

Lemma table_lines_top item ls :
  table_lines item = Ok ls → lines_with_prefix top_block_start ls = [].
Proof.
  destruct item as [table_key [sid vn fcs aw desc]].
  unfold table_lines.
  cbn [Table.source_table_id Table.view_name Table.filter_columns
       Table.additional_where Table.description].
  intros H.
  apply rbind_Ok in H as (sid' & _ & H).
  apply rbind_Ok in H as (vn' & _ & H).
  apply rbind_Ok in H as (fcs' & _ & H).
  apply rbind_Ok in H as (fl & Hfl & H). apply Ok_inj in H as <-.
  assert (lines_with_prefix top_block_start fl = []) as Hfilters.
  { rewrite (lines_with_prefix_for_each _ (λ _, []) _ _ _ Hfl).
    - apply concat_map_nil.
    - intros c lc _ Hc. by apply filter_column_lines_top in Hc. }
  destruct aw as [[|ca aw]|], desc as [[|cd desc]|];
    cbv beta iota delta [truthy];
    rewrite ?lines_with_prefix_app, Hfilters; filter_lines; done.
Qed.

Lemma source_dataset_lines_top item ls :
  source_dataset_lines item = Ok ls →
  lines_with_prefix top_block_start ls = [block_header "  " item.1].
Proof.
  destruct item as [dataset_name [tdk spid desc tables]].
  unfold source_dataset_lines.
  cbn [fst SourceDataset.target_dataset_key SourceDataset.source_project_id
       SourceDataset.description SourceDataset.tables].
  intros H.
  apply rbind_Ok in H as (tdk' & _ & H).
  apply rbind_Ok in H as (desc' & _ & H).
  apply rbind_Ok in H as (tables' & _ & H).
  apply rbind_Ok in H as (tl & Htl & H). apply Ok_inj in H as <-.
  assert (lines_with_prefix top_block_start tl = []) as Htables.
  { rewrite (lines_with_prefix_for_each _ (λ _, []) _ _ _ Htl).
    - apply concat_map_nil.
    - intros t lt _ Ht. by apply table_lines_top in Ht. }
  destruct spid as [spid|];
    rewrite ?lines_with_prefix_app, Htables; filter_lines; done.
Qed.

Lemma label_lines_top labels :
  lines_with_prefix top_block_start (map label_line labels) = [].
Proof.
  induction labels as [|[k v] labels IH]; [done|].
  cbn [map]. rewrite lines_with_prefix_cons, IH. unfold label_line.
  filter_lines. done.
Qed.

Lemma output_dataset_lines_top item ls :
  output_dataset_lines item = Ok ls →
  lines_with_prefix top_block_start ls = [block_header "  " item.1].
Proof.
  destruct item as [key dataset]. unfold output_dataset_lines. intros H.
  apply rbind_Ok in H as (id & _ & H).
  apply rbind_Ok in H as (desc & _ & H).
  apply rbind_Ok in H as (mb & _ & H).
  apply rbind_Ok in H as (labels & _ & H). apply Ok_inj in H as <-.
  rewrite ?lines_with_prefix_app, label_lines_top. filter_lines. done.
Qed.

(** X14: the blocks of the rendered text come in the order of the
    configuration: the lines that open a top-level block are those of the
    output datasets, in the order of [output_datasets_config], then those of
    the source datasets, in the order of [source_datasets_config], one for
    each entry. *)
Theorem rendered_blocks_in_order
    (config : Config.t) (lines : list string)
    (output_datasets_config : list (string * OutputDataset.t))
    (source_datasets_config : list (string * SourceDataset.t)) :
  generate_tfvars_lines config = Ok lines →
  Config.output_datasets_config config = Some output_datasets_config →
  Config.source_datasets_config config = Some source_datasets_config →
  lines_with_prefix top_block_start lines
  = map (λ item, block_header "  " item.1) output_datasets_config
    ++ map (λ item, block_header "  " item.1) source_datasets_config.
Proof.
  unfold generate_tfvars_lines. intros H Hodc Hsdc.
  rewrite Hodc, Hsdc in H.
  apply rbind_Ok in H as (project_id & _ & H).
  apply rbind_Ok in H as (odc & Heq & H). apply Ok_inj in Heq as <-.
  apply rbind_Ok in H as (lo & Hlo & H).
  apply rbind_Ok in H as (sdc & Heq & H). apply Ok_inj in Heq as <-.
  apply rbind_Ok in H as (lsrc & Hlsrc & H). apply Ok_inj in H as <-.
  rewrite <- (concat_map_singleton _ output_datasets_config),
    <- (concat_map_singleton _ source_datasets_config).
  rewrite <- (lines_with_prefix_for_each top_block_start _ _ _ _ Hlo)
    by (intros x ls _ Hx; by apply output_dataset_lines_top in Hx).
  rewrite <- (lines_with_prefix_for_each top_block_start _ _ _ _ Hlsrc)
    by (intros x ls _ Hx; by apply source_dataset_lines_top in Hx).
  rewrite !lines_with_prefix_app.
  generalize (lines_with_prefix top_block_start lo)
    (lines_with_prefix top_block_start lsrc). intros a b.
  filter_lines. by rewrite app_nil_r.
Qed.

Lemma rendered_blocks_in_order_witness :
  ∃ lines,
    generate_tfvars_lines sample_config = Ok lines ∧
    lines_with_prefix top_block_start lines
    = [ block_header "  " "acme_co"; block_header "  " "raw_lake" ].
Proof.
  eexists. split; [vm_compute; reflexivity|].
  apply (rendered_blocks_in_order sample_config _
           sample_output_datasets sample_source_datasets).
  - vm_compute. reflexivity.
  - reflexivity.
  - reflexivity.
Defined.

(** ** The filters of the predefined tables *)

Lemma uncatalogued_tables :
  Forall (λ item : string * (string * list string),
            item.1 ≠ "raw_lake" →
            Forall (λ table_name, table_filters !! table_name = None)
              item.2.2)
    predefined_structure.
Proof. compute_done. Qed.

(** X15: in the configuration [main] builds the source datasets are
    raw_lake, analytics_raw and transaction_raw, in this order; every table
    has the filter columns the resolver gives for its name and the global
    filters of the run; and outside raw_lake no table has any, whatever the
    global filters are. *)
Theorem main_tables_filter_columns
    (stdin : list string) (st : main_locals) (stdin' : list string) :
  main stdin = Ok (st, stdin') →
  ∃ source_datasets_config,
    Config.source_datasets_config (config st) = Some source_datasets_config ∧
    map fst source_datasets_config
    = ["raw_lake"; "analytics_raw"; "transaction_raw"] ∧
    ∀ dataset_name dataset_info table_key table_info,
      (dataset_name, dataset_info) ∈ source_datasets_config →
      (table_key, table_info) ∈ tables_of (dataset_name, dataset_info) →
      Table.filter_columns table_info
      = Some (get_table_filter_columns table_key (global_filters st)) ∧
      (dataset_name ≠ "raw_lake" → Table.filter_columns table_info = Some []).
Proof.
  intros Hmain.
  apply main_Ok in Hmain as (p & r & v & odc & Hcfg & _ & _ & _).
  rewrite Hcfg. eexists. split; [reflexivity|]. split; [reflexivity|].
  intros name info tk ti Hin Htable.
  rewrite generate_source_datasets_config_map in Hin.
  apply list_elem_of_fmap in Hin as ([n [d ts]] & Heq & Hitem).
  injection Heq as -> ->.
  unfold tables_of in Htable. cbn [snd fst SourceDataset.tables] in Htable.
  change (default [] (Some (map (assembled_table (global_filters st)) ts)))
    with (map (assembled_table (global_filters st)) ts) in Htable.
  pose proof (assembled_table_elem _ _ _ _ Htable) as ->.
  split; [reflexivity|]. intros Hname. cbn [Table.filter_columns]. f_equal.
  apply list_elem_of_fmap in Htable as (t & Heq & Ht).
  injection Heq as -> _.
  pose proof uncatalogued_tables as Hall.
  rewrite Forall_forall in Hall. specialize (Hall _ Hitem Hname).
  rewrite Forall_forall in Hall. specialize (Hall _ Ht).
  by rewrite get_table_filter_columns_omap, Hall.
Qed.

Lemma main_tables_filter_columns_witness :
  ∃ st stdin' sdc,
    main acme_session = Ok (st, stdin') ∧
    Config.source_datasets_config (config st) = Some sdc ∧
    map fst sdc = ["raw_lake"; "analytics_raw"; "transaction_raw"] ∧
    ∀ dataset_name dataset_info table_key table_info,
      (dataset_name, dataset_info) ∈ sdc →
      (table_key, table_info) ∈ tables_of (dataset_name, dataset_info) →
      Table.filter_columns table_info
      = Some (get_table_filter_columns table_key (global_filters st)) ∧
      (dataset_name ≠ "raw_lake" → Table.filter_columns table_info = Some []).
Proof.
  eexists _, _.
  edestruct (main_tables_filter_columns acme_session) as (sdc & H);
    [vm_compute; reflexivity|].
  exists sdc. split; [vm_compute; reflexivity|]. exact H.
Defined.

(** ** Renderer: all of the text or none *)

Lemma getitem_Ok {A} key (field : option A) a :
  getitem key field = Ok a → field = Some a.
Proof. destruct field; [by intros [= ->]|discriminate]. Qed.

Lemma for_each_length {A} (f : A → nat)
    (body : A → result (list string)) items lines :
  for_each body items = Ok lines →
  (∀ x ls, x ∈ items → body x = Ok ls → length ls = f x) →
  length lines = sum_list_with f items.
Proof.
  revert lines. induction items as [|x items IH]; intros lines Hfor Hbody.
  - by apply Ok_inj in Hfor as <-.
  - simpl in Hfor. apply rbind_Ok in Hfor as (ls & Hx & Hfor).
    apply rbind_Ok in Hfor as (ls' & Hitems & Hfor).
    apply Ok_inj in Hfor as <-.
    rewrite length_app. simpl. f_equal.
    + apply Hbody; [apply list_elem_of_here|done].
    + apply IH; [done|]. intros y ly Hy. apply Hbody.
      by apply list_elem_of_further.
Qed.

(** Finds a line in a list written with [::] and [++]. *)
Ltac in_list :=
  first [ assumption
        | apply list_elem_of_here
        | apply list_elem_of_further; in_list
        | apply elem_of_app; left; in_list
        | apply elem_of_app; right; in_list ].

(** Takes apart the hypothesis that a line is one of a few. *)
Ltac one_of_lines H :=
  repeat first
    [ apply elem_of_nil in H; destruct H
    | apply elem_of_cons in H as [->|H]
    | apply elem_of_app in H as [H|H] ].

Lemma filter_column_lines_full filter_col ls :
  filter_column_lines filter_col = Ok ls →
  length ls = filter_column_line_count filter_col ∧
  ∀ line, line ∈ filter_column_field_lines filter_col → line ∈ ls.
Proof.
  unfold filter_column_lines, filter_column_line_count,
    filter_column_field_lines, has_other_operator. intros H.
  apply rbind_Ok in H as (cn & Hcn & H). apply getitem_Ok in Hcn as ->.
  apply rbind_Ok in H as (cond & Hcond & H). apply getitem_Ok in Hcond as ->.
  apply rbind_Ok in H as (ol & Hol & H). apply Ok_inj in H as <-.
  change (default "" (Some cn)) with cn.
  change (default "" (Some cond)) with cond.
  case_bool_decide.
  - apply rbind_Ok in Hol as (op & Hop & Hol). apply getitem_Ok in Hop as ->.
    apply Ok_inj in Hol as <-. change (default "" (Some op)) with op.
    split; [reflexivity|]. intros line Hline. one_of_lines Hline; in_list.
  - apply Ok_inj in Hol as <-.
    split; [reflexivity|]. intros line Hline. one_of_lines Hline; in_list.
Qed.

Lemma table_lines_full item ls :
  table_lines item = Ok ls →
  length ls = table_line_count item ∧
  (∀ line, line ∈ table_field_lines item → line ∈ ls) ∧
  ∀ filter_col, filter_col ∈ filter_columns_of item →
    ∀ line, line ∈ filter_column_field_lines filter_col → line ∈ ls.
Proof.
  destruct item as [table_key [sid vn fcs aw desc]].
  unfold table_lines, table_line_count, table_field_lines, filter_columns_of,
    has_additional_where, has_description, block_header.
  cbn [fst snd Table.source_table_id Table.view_name Table.filter_columns
       Table.additional_where Table.description].
  intros H.
  apply rbind_Ok in H as (sid' & Hsid & H). apply getitem_Ok in Hsid as ->.
  apply rbind_Ok in H as (vn' & Hvn & H). apply getitem_Ok in Hvn as ->.
  apply rbind_Ok in H as (fcs' & Hfcs & H). apply getitem_Ok in Hfcs as ->.
  apply rbind_Ok in H as (fl & Hfl & H). apply Ok_inj in H as <-.
  change (default [] (Some fcs')) with fcs'.
  change (default "" (Some sid')) with sid'.
  change (default "" (Some vn')) with vn'.
  pose proof (for_each_length filter_column_line_count _ _ _ Hfl
                (λ c lc _ Hc, proj1 (filter_column_lines_full c lc Hc)))
    as Hlen.
  split; [|split].
  - destruct aw as [[|ca aw]|], desc as [[|cd desc]|];
      cbv beta iota delta [truthy truthy_opt];
      rewrite ?length_app, ?length_cons, ?length_nil, Hlen; lia.
  - intros line Hline.
    destruct aw as [[|ca aw]|], desc as [[|cd desc]|];
      cbv beta iota delta [truthy truthy_opt] in Hline |- *;
      one_of_lines Hline; in_list.
  - intros c Hc line Hline.
    destruct (for_each_elem_of _ _ _ _ Hfl Hc) as (lc & Hlc & Hsub).
    apply filter_column_lines_full in Hlc as [_ Hlc].
    apply Hlc, Hsub in Hline. in_list.
Qed.

Lemma source_dataset_lines_full item ls :
  source_dataset_lines item = Ok ls →
  length ls = source_dataset_line_count item ∧
  (∀ line, line ∈ source_dataset_field_lines item → line ∈ ls) ∧
  ∀ table, table ∈ tables_of item →
    (∀ line, line ∈ table_field_lines table → line ∈ ls) ∧
    ∀ filter_col, filter_col ∈ filter_columns_of table →
      ∀ line, line ∈ filter_column_field_lines filter_col → line ∈ ls.
Proof.
  destruct item as [dataset_name [tdk spid desc tables]].
  unfold source_dataset_lines, source_dataset_line_count,
    source_dataset_field_lines, tables_of, has_source_project_id,
    block_header.
  cbn [fst snd SourceDataset.target_dataset_key
       SourceDataset.source_project_id SourceDataset.description
       SourceDataset.tables].
  intros H.
  apply rbind_Ok in H as (tdk' & Htdk & H). apply getitem_Ok in Htdk as ->.
  apply rbind_Ok in H as (desc' & Hdesc & H). apply getitem_Ok in Hdesc as ->.
  apply rbind_Ok in H as (tables' & Htables & H).
  apply getitem_Ok in Htables as ->.
  apply rbind_Ok in H as (tl & Htl & H). apply Ok_inj in H as <-.
  change (default [] (Some tables')) with tables'.
  change (default "" (Some tdk')) with tdk'.
  change (default "" (Some desc')) with desc'.
  pose proof (for_each_length table_line_count _ _ _ Htl
                (λ t lt _ Ht, proj1 (table_lines_full t lt Ht))) as Hlen.
  split; [|split].
  - destruct spid as [spid|]; cbv beta iota delta [present];
      rewrite ?length_app, ?length_cons, ?length_nil, Hlen; lia.
  - intros line Hline.
    destruct spid as [spid|]; one_of_lines Hline; in_list.
  - intros t Ht.
    destruct (for_each_elem_of _ _ _ _ Htl Ht) as (lt & Hlt & Hsub).
    apply table_lines_full in Hlt as (_ & Hfields & Hcols).
    split.
    + intros line Hline. apply Hfields, Hsub in Hline. in_list.
    + intros c Hc line Hline. apply (Hcols c Hc), Hsub in Hline. in_list.
Qed.

Lemma output_dataset_lines_full item ls :
  output_dataset_lines item = Ok ls →
  length ls = output_dataset_line_count item ∧
  ∀ line, line ∈ output_dataset_field_lines item → line ∈ ls.
Proof.
  destruct item as [key [id desc mb labels]].
  unfold output_dataset_lines, output_dataset_line_count,
    output_dataset_field_lines, block_header.
  cbn [fst snd OutputDataset.dataset_id OutputDataset.description
       OutputDataset.months_back OutputDataset.labels].
  intros H.
  apply rbind_Ok in H as (id' & Hid & H). apply getitem_Ok in Hid as ->.
  apply rbind_Ok in H as (desc' & Hdesc & H). apply getitem_Ok in Hdesc as ->.
  apply rbind_Ok in H as (mb' & Hmb & H). apply getitem_Ok in Hmb as ->.
  apply rbind_Ok in H as (labels' & Hlabels & H).
  apply getitem_Ok in Hlabels as ->. apply Ok_inj in H as <-.
  change (default [] (Some labels')) with labels'.
  change (default "" (Some id')) with id'.
  change (default "" (Some desc')) with desc'.
  change (default 0 (Some mb')) with mb'.
  split.
  - rewrite ?length_app, ?length_cons, ?length_nil, length_map. lia.
  - intros line Hline. one_of_lines Hline; in_list.
Qed.

(** X16: the renderer writes all of a configuration or nothing. For a
    configuration whose months [str] can write, it returns a text exactly
    when every key it subscripts is there, and raises [KeyError] otherwise;
    a returned text is the lines joined by newlines, and the lines leave
    nothing out: their number is that of the blocks of the configuration,
    the first is the header, the last the closing brace, and the line of
    every field of the configuration, of every output dataset and label, of
    every source dataset, table and filter column is among them. *)
Theorem renderer_all_or_nothing (config : Config.t) :
  months_printable config = true →
  (wf_config config = true → ∃ text, generate_tfvars_content config = Ok text) ∧
  (wf_config config = false →
   ∃ key, generate_tfvars_content config = Raise (KeyError key)) ∧
  ∀ text, generate_tfvars_content config = Ok text →
    wf_config config = true ∧
    ∃ lines, generate_tfvars_lines config = Ok lines ∧
             text = join NL lines ∧
             fully_rendered config lines.
Proof.
  intros _.
  pose proof (ok_or_key_error_content config) as Hcontent.
  split; [|split].
  - intros Hwf. by rewrite Hwf in Hcontent.
  - intros Hwf. by rewrite Hwf in Hcontent.
  - intros text Htext. split.
    + destruct (wf_config config); [done|].
      destruct Hcontent as [key Hkey]. congruence.
    + unfold generate_tfvars_content in Htext.
      apply rbind_Ok in Htext as (lines & Hlines & Htext).
      apply Ok_inj in Htext as <-.
      exists lines. split; [done|]. split; [done|].
      clear Hcontent.
      destruct config as [pid region vp odc sdc].
      revert Hlines.
      unfold generate_tfvars_lines, fully_rendered, expected_line_count,
        top_field_lines.
      cbn [Config.project_id Config.region Config.view_prefix
           Config.output_datasets_config Config.source_datasets_config].
      intros H.
      apply rbind_Ok in H as (pid' & Hpid & H). apply getitem_Ok in Hpid as ->.
      apply rbind_Ok in H as (odc' & Hodc & H). apply getitem_Ok in Hodc as ->.
      apply rbind_Ok in H as (lo & Hlo & H).
      apply rbind_Ok in H as (sdc' & Hsdc & H). apply getitem_Ok in Hsdc as ->.
      apply rbind_Ok in H as (lsrc & Hlsrc & H). apply Ok_inj in H as <-.
      change (default [] (Some odc')) with odc'.
      change (default [] (Some sdc')) with sdc'.
      change (default "" (Some pid')) with pid'.
      pose proof (for_each_length output_dataset_line_count _ _ _ Hlo
                    (λ x lx _ Hx, proj1 (output_dataset_lines_full x lx Hx)))
        as Hlen_out.
      pose proof (for_each_length source_dataset_line_count _ _ _ Hlsrc
                    (λ x lx _ Hx, proj1 (source_dataset_lines_full x lx Hx)))
        as Hlen_src.
      split; [|split; [|split; [|split; [|split]]]].
      * rewrite ?length_app, ?length_cons, ?length_nil, Hlen_out, Hlen_src.
        lia.
      * reflexivity.
      * rewrite !app_assoc. apply last_snoc.
      * intros line Hline. unfold get_default.
        destruct region, vp; one_of_lines Hline; in_list.
      * intros item Hitem line Hline.
        destruct (for_each_elem_of _ _ _ _ Hlo Hitem) as (l & Hl & Hsub).
        apply output_dataset_lines_full in Hl as [_ Hfields].
        apply Hfields, Hsub in Hline. in_list.
      * intros dataset Hdataset.
        destruct (for_each_elem_of _ _ _ _ Hlsrc Hdataset)
          as (l & Hl & Hsub).
        apply source_dataset_lines_full in Hl as (_ & Hfields & Htables).
        split.
        -- intros line Hline. apply Hfields, Hsub in Hline. in_list.
        -- intros table Htable.
           destruct (Htables table Htable) as [Ht Hc]. split.
           ++ intros line Hline. apply Ht, Hsub in Hline. in_list.
           ++ intros c Hin line Hline.
              apply (Hc c Hin), Hsub in Hline. in_list.
Qed.

Lemma renderer_all_or_nothing_witness :
  months_printable sample_config = true ∧
  wf_config sample_config = true ∧
  ∃ text lines,
    generate_tfvars_content sample_config = Ok text ∧
    generate_tfvars_lines sample_config = Ok lines ∧
    text = join NL lines ∧
    fully_rendered sample_config lines.
Proof.
  assert (Hmonths : months_printable sample_config = true)
    by (vm_compute; reflexivity).
  assert (Hwf : wf_config sample_config = true) by (vm_compute; reflexivity).
  split; [exact Hmonths|]. split; [exact Hwf|].
  destruct (renderer_all_or_nothing sample_config Hmonths)
    as (Hok & _ & Hfull).
  destruct (Hok Hwf) as [text Htext].
  destruct (Hfull text Htext) as (_ & lines & Hlines & Hjoin & Hall).
  exists text, lines. auto.
Defined.
